(** * Extension-class compilation and macro expansion (numba)

    A shallow embedding of

    - [numba/macro.py]: the block-local passes [module_getattr_folding] and
      [expand_macros_in_block] together with their driver [expand_macros];
    - [numba/exttypes/compileclass.py]: [ExtensionCompiler] and
      [AttributesInheriter].

    Python dictionaries are finite maps, a statement that may raise returns
    an [outcome], and an object mutated in place is threaded through the
    functions that mutate it: such a function returns the object as it is
    left behind, also when it raises. An object that several instructions
    may hold at once (what a macro's function returns) is known by its
    identity, and the writes made into it are kept in the order in which
    they happen. *)

From Stdlib Require Import ZArith.
From stdpp Require Import gmap strings pretty list fin_maps.

Set Default Proof Using "Type".
Set Warnings "-register-all".
Local Open Scope string_scope.

(** ** Exceptions and outcomes *)

Module Py.

Inductive exc_class :=
| KeyError | AttributeError | TypeError | AssertionError
| MacroError
| OtherError (cls : string).

(** [exc_msg e] is what [str(e)] evaluates to. *)
Record exception := mkExc { exc_cls : exc_class; exc_msg : string }.

Inductive outcome (A : Type) :=
| Return (a : A)
| Raise (e : exception).
Arguments Return {A} a.
Arguments Raise {A} e.

#[global] Instance outcome_ret : MRet outcome := λ A a, Return a.
#[global] Instance outcome_bind : MBind outcome := λ A B k m,
  match m with
  | Return a => k a
  | Raise e => Raise e
  end.

(** A list comprehension whose element expression may raise: elements are
    evaluated left to right and the first exception ends the evaluation. *)
Fixpoint comprehension {A B} (f : A → outcome B) (l : list A) : outcome (list B) :=
  match l with
  | [] => Return []
  | x :: l' =>
      y ← f x; ys ← comprehension f l'; Return (y :: ys)
  end.

(** [dict(pairs)]: a later pair overwrites an earlier one with the same key. *)
Definition dict_of_pairs {V} (pairs : list (string * V)) : gmap string V :=
  foldl (λ d kv, <[kv.1 := kv.2]> d) ∅ pairs.

(** [d.update(other)]: every entry of [other] is written into [d]. *)
Definition dict_update {V} (d other : gmap string V) : gmap string V :=
  other ∪ d.

(** [repr] of a string key, as shown by [str(KeyError(key))]. *)
Definition repr_str (s : string) : string := "'" ++ s ++ "'".

End Py.

Import Py.

(** ** numba/macro.py *)

Module Macro.

(** Identity of a Python function object (a macro's expansion function). *)
Definition fid := nat.

(** Identity of an object that a macro's expansion function returns. Two
    calls that return the same object return the same identity. *)
Definition oid := nat.

(** Values that the constant pool can hold. [PyObject] is a module or any
    other object, given by the attributes set on it; [PyMacro] is an
    instance of class [Macro] with its four slots. *)
Inductive pyval :=
| PyNone
| PyBool (b : bool)
| PyInt (z : Z)
| PyStr (s : string)
| PyFunction (f : fid)
| PyList (l : list pyval)
| PyObject (attrs : list (string * pyval))
| PyMacro (name : string) (func : fid) (callable : bool) (argnames : pyval).

Fixpoint assoc {V} (k : string) (l : list (string * V)) : option V :=
  match l with
  | [] => None
  | (k', v) :: l' => if String.eqb k' k then Some v else assoc k l'
  end.

Definition is_Macro (v : pyval) : bool :=
  match v with PyMacro _ _ _ _ => true | _ => false end.

(** *** The intermediate representation (module [ir]) *)

Record Loc := mkLoc { filename : string; line : nat }.

Record Var := mkVar { var_name : string; var_loc : Loc }.

(** [ir.Intrinsic(name, type, args)]; [intr_loc] is unset on construction. *)
Record Intrinsic := mkIntrinsic {
  intr_name : string;
  intr_type : pyval;
  intr_args : list pyval;
  intr_loc : option Loc
}.

(** What a macro's expansion function returns: an object (an
    [ir.Intrinsic], say), known by its identity and taken to be none of
    the values bound in the pool, or one of the builtin values, which take
    no attribute. *)
Inductive result :=
| RObject (o : oid)
| RNone
| RBool (b : bool)
| RInt (z : Z)
| RStr (s : string)
| RList (l : list pyval).

(** Whether a result is an object rather than a builtin value. *)
Definition is_object (r : result) : bool :=
  match r with RObject _ => true | _ => false end.

(** The name Python gives the type of a result in an error message. *)
Definition result_type_name (r : result) : string :=
  match r with
  | RObject _ => "object"
  | RNone => "NoneType"
  | RBool _ => "bool"
  | RInt _ => "int"
  | RStr _ => "str"
  | RList _ => "list"
  end.

(** What the passes need from outside this module:
    - [call_func f args kws]: the call [f( *args, **kws)] of a macro's
      expansion function, which returns a result or raises;
    - [str_loc loc]: [str(loc)];
    - [builtin_getattr base attr]: the lookup of an attribute that is not
      one of those this model spells out (the builtin attributes of
      [None], of numbers, strings, lists, functions, modules and Macros):
      the value, or the exception Python raises for it;
    - for an object [o] returned by a macro's function: [object_truth o],
      what [bool(o)] gives or raises; [setattr_loc o loc], the outcome of
      the assignment [o.loc = loc] (an object of a class with slots and
      none named [loc] raises); [object_name o], its [name], which the
      pass reads when it meets the object in call position.
    No attribute of [None] is a Macro. *)
Class Runtime := {
  call_func : fid → list pyval → gmap string pyval → outcome result;
  str_loc : Loc → string;
  builtin_getattr : pyval → string → outcome pyval;
  object_truth : oid → outcome bool;
  setattr_loc : oid → Loc → outcome unit;
  object_name : oid → string;
  None_has_no_Macro :
    ∀ attr v, builtin_getattr PyNone attr = Return v → is_Macro v = false
}.

(** [getattr(base, attr)]: an attribute set on the object or a slot of the
    Macro when there is one, the builtin lookup otherwise. *)
Definition getattr `{Runtime} (base : pyval) (attr : string) : outcome pyval :=
  match base with
  | PyObject attrs =>
      match assoc attr attrs with
      | Some v => Return v
      | None => builtin_getattr base attr
      end
  | PyMacro name func callable argnames =>
      if String.eqb attr "name" then Return (PyStr name)
      else if String.eqb attr "func" then Return (PyFunction func)
      else if String.eqb attr "callable" then Return (PyBool callable)
      else if String.eqb attr "argnames" then Return argnames
      else builtin_getattr base attr
  | _ => builtin_getattr base attr
  end.

(** The [func] of a call expression: a variable, or, after expansion, the
    function object that replaced it: the [Intrinsic] the pass has built,
    or the object a macro's function has returned. *)
Inductive callee :=
| CVar (v : Var)
| CIntrinsic (i : Intrinsic)
| CObject (o : oid).

Definition callee_name `{Runtime} (c : callee) : string :=
  match c with
  | CVar v => var_name v
  | CIntrinsic i => intr_name i
  | CObject o => object_name o
  end.

(** Right-hand sides of an assignment. [ExprOther] is an [ir.Expr] whose
    [op] is neither ['call'] nor ['getattr']; [OtherValue] is anything
    that is none of the classes the passes test for. *)
Inductive rhs :=
| Global (name : string) (value : pyval) (loc : Loc)
| FreeVar (index : nat) (name : string) (value : pyval) (loc : Loc)
| Const (value : pyval) (loc : Loc)
| VarRef (v : Var)
| ExprCall (func : callee) (args : list Var) (kws : list (string * Var)) (loc : Loc)
| ExprGetattr (value : Var) (attr : string) (loc : Loc)
| ExprOther (op : string) (loc : Loc)
| OtherValue.

Inductive inst :=
| Assign (value : rhs) (target : Var) (loc : Loc)
| Stmt (loc : Loc).

Abbreviation pool := (gmap string pyval).

(** *** [module_getattr_folding] *)

(** One iteration of the loop: the outcome and the pool as it is left. *)
Definition fold_inst `{Runtime} (constants : pool) (i : inst) : outcome unit * pool :=
  match i with
  | Assign (Global _ value _) target _ =>
      (Return (), <[var_name target := value]> constants)
  | Assign (ExprGetattr v attr _) target _ =>
      match constants !! var_name v with
      | Some base =>
          match getattr base attr with
          | Return x => (Return (), <[var_name target := x]> constants)
          | Raise e => (Raise e, constants)
          end
      | None => (Return (), constants)
      end
  | Assign (Const value _) target _ =>
      (Return (), <[var_name target := value]> constants)
  | Assign (VarRef v) target _ =>
      match constants !! var_name v with
      | Some x => (Return (), <[var_name target := x]> constants)
      | None => (Return (), constants)
      end
  | Assign (FreeVar _ _ value _) target _ =>
      (Return (), <[var_name target := value]> constants)
  | _ => (Return (), constants)
  end.

Fixpoint module_getattr_folding `{Runtime} (constants : pool) (body : list inst)
  : outcome unit * pool :=
  match body with
  | [] => (Return (), constants)
  | i :: body' =>
      match fold_inst constants i with
      | (Return _, constants') => module_getattr_folding constants' body'
      | (Raise e, constants') => (Raise e, constants')
      end
  end.

(** *** [expand_macros_in_block] *)

(** [constants[v.name]] *)
Definition subscript (constants : pool) (v : Var) : outcome pyval :=
  match constants !! var_name v with
  | Some x => Return x
  | None => Raise (mkExc KeyError (repr_str (var_name v)))
  end.

(** [[constants[arg.name] for arg in rhs.args]] *)
Definition positional_args (constants : pool) (args : list Var)
  : outcome (list pyval) :=
  comprehension (subscript constants) args.

(** [dict((k, constants[v.name]) for k, v in rhs.kws)] *)
Definition keyword_args (constants : pool) (kws : list (string * Var))
  : outcome (gmap string pyval) :=
  pairs ← comprehension
            (λ kv : string * Var, x ← subscript constants kv.2; Return (kv.1, x))
            kws;
  Return (dict_of_pairs pairs).

Definition newline : string := String (Ascii.ascii_of_nat 10) EmptyString.

(** The exception raised by the [except BaseException] handler. *)
Definition macro_error `{Runtime} (loc : Loc) (e : exception) : exception :=
  mkExc MacroError
    (("Macro expansion failed at " ++ str_loc loc) ++ ":" ++ newline ++ exc_msg e).

(** [if result:], the truth value of what an expansion function returned. *)
Definition truthy `{Runtime} (r : result) : outcome bool :=
  match r with
  | RObject o => object_truth o
  | RNone => Return false
  | RBool b => Return b
  | RInt z => Return (negb (z =? 0)%Z)
  | RStr s => Return match s with EmptyString => false | _ => true end
  | RList l => Return match l with [] => false | _ => true end
  end.

(** A write [o.loc = loc] into the object [o]. The object is changed in
    place: every instruction that holds [o] sees the new location. *)
Definition write := (oid * Loc)%type.

(** What [result.loc = ...] raises when [result] is a builtin value. *)
Definition no_attribute_loc (r : result) : exception :=
  mkExc AttributeError
    ("'" ++ result_type_name r ++ "' object has no attribute 'loc'").

(** One iteration of the loop: the instruction as it is left together with
    the writes made into returned objects, or the exception that ends the
    pass. *)
Definition expand_inst `{Runtime} (constants : pool) (i : inst)
  : outcome (inst * list write) :=
  match i with
  | Assign (ExprCall callee args kws rloc) target iloc =>
      match constants !! callee_name callee with
      | Some (PyMacro name func callable argnames) =>
          if callable then
            args' ← positional_args constants args;
            kws' ← keyword_args constants kws;
            match call_func func args' kws' with
            | Raise e => Raise (macro_error iloc e)
            | Return result =>
                b ← truthy result;
                if b : bool then
                  match result with
                  | RObject o =>
                      _ ← setattr_loc o rloc;
                      Return (Assign (ExprCall (CObject o) args kws rloc) target iloc,
                              [(o, rloc)])
                  | _ => Raise (no_attribute_loc result)
                  end
                else Return (i, [])
            end
          else Raise (mkExc AssertionError EmptyString)
      | _ => Return (i, [])
      end
  | Assign (ExprGetattr v attr rloc) target iloc =>
      match constants !! var_name v with
      | None | Some PyNone => Return (i, [])
      | Some base =>
          value ← getattr base attr;
          match value with
          | PyMacro name func callable argnames =>
              if callable then Return (i, [])
              else
                let intr := mkIntrinsic name (PyFunction func) [] None in
                Return (Assign (ExprCall (CIntrinsic intr) [] [] rloc) target iloc, [])
          | _ => Return (i, [])
          end
      end
  | _ => Return (i, [])
  end.

(** The loop over [block.body]. Instructions are rewritten in place, so the
    body is returned as it is left, also when an iteration raises; with it
    come the writes made into returned objects, oldest first. *)
Fixpoint run_expand_macros_in_block `{Runtime} (constants : pool) (body : list inst)
  : outcome unit * list inst * list write :=
  match body with
  | [] => (Return (), [], [])
  | i :: body' =>
      match expand_inst constants i with
      | Return (i', w) =>
          let '(r, body'', ws) := run_expand_macros_in_block constants body' in
          (r, i' :: body'', (w ++ ws)%list)
      | Raise e => (Raise e, i :: body', [])
      end
  end.

(** The outcome of [expand_macros_in_block] and the body as it leaves it. *)
Definition expand_macros_in_block `{Runtime} (constants : pool) (body : list inst)
  : outcome unit * list inst :=
  (run_expand_macros_in_block constants body).1.

(** The writes it makes into the objects the macro functions return. *)
Definition loc_writes `{Runtime} (constants : pool) (body : list inst) : list write :=
  (run_expand_macros_in_block constants body).2.

(** The [loc] of an object after a run of writes: that of the last one. *)
Definition loc_after (ws : list write) (o : oid) : option Loc :=
  snd <$> last (filter (λ w : write, w.1 = o) ws).

(** *** [expand_macros] *)

(** The loop over [blocks.values()], given in iteration order, with the
    writes made into returned objects. *)
Fixpoint expand_blocks `{Runtime} (constants : pool) (blocks : list (list inst))
  : outcome unit * list (list inst) * list write :=
  match blocks with
  | [] => (Return (), [], [])
  | blk :: blocks' =>
      match module_getattr_folding constants blk with
      | (Raise e, _) => (Raise e, blk :: blocks', [])
      | (Return _, constants') =>
          match run_expand_macros_in_block constants' blk with
          | (Raise e, blk', ws) => (Raise e, blk' :: blocks', ws)
          | (Return _, blk', ws) =>
              let '(r, blocks'', ws') := expand_blocks constants' blocks' in
              (r, blk' :: blocks'', (ws ++ ws')%list)
          end
      end
  end.

(** The outcome of [expand_macros] and the blocks as it leaves them. *)
Definition expand_macros `{Runtime} (blocks : list (list inst))
  : outcome unit * list (list inst) :=
  (expand_blocks ∅ blocks).1.

(** The writes it makes into the objects the macro functions return. *)
Definition expand_macros_loc_writes `{Runtime} (blocks : list (list inst)) : list write :=
  (expand_blocks ∅ blocks).2.

(** *** Vocabulary of the properties *)

(** The pool as [module_getattr_folding] leaves it. *)
Definition pool_after `{Runtime} (constants : pool) (body : list inst) : pool :=
  (module_getattr_folding constants body).2.

(** The right-hand sides that bind their target, in the words of the
    specification: a [Global], a [Const], a [FreeVar], a [Var] already bound in the
    pool, or a getattr whose base name is already bound in the pool. *)
Definition binding_rhs (constants : pool) (r : rhs) : bool :=
  match r with
  | Global _ _ _ | Const _ _ | FreeVar _ _ _ _ => true
  | VarRef v => bool_decide (is_Some (constants !! var_name v))
  | ExprGetattr v _ _ => bool_decide (is_Some (constants !! var_name v))
  | _ => false
  end.

Definition binding_inst (constants : pool) (i : inst) : bool :=
  match i with
  | Assign r _ _ => binding_rhs constants r
  | Stmt _ => false
  end.

(** A function object in call position: the [Intrinsic] built by the pass
    or the object returned by a macro's function. *)
Definition is_function_object (c : callee) : bool :=
  match c with
  | CVar _ => false
  | CIntrinsic _ | CObject _ => true
  end.

(** In the words of the specification: when the expansion function of the
    callable Macro that a call resolves to returns a truthy result, the
    value of the instruction is replaced by a call to that result, a
    function object in call position, with the original arguments. *)
Definition truthy_result_replaces `{Runtime} (constants : pool) (i : inst) : Prop :=
  ∀ callee args kws rloc target iloc name func argnames args' kws' result,
    i = Assign (ExprCall callee args kws rloc) target iloc →
    constants !! callee_name callee = Some (PyMacro name func true argnames) →
    positional_args constants args = Return args' →
    keyword_args constants kws = Return kws' →
    call_func func args' kws' = Return result →
    truthy result = Return true →
    ∃ func', is_function_object func' = true ∧
             (expand_macros_in_block constants [i]).2 =
             [Assign (ExprCall func' args kws rloc) target iloc].

(** *** A CUDA-like namespace, used to exercise the passes *)

Definition example_loc : Loc := mkLoc "kernel.py" 12.
Definition example_var (name : string) : Var := mkVar name example_loc.

Definition example_pool : pool :=
  <["cuda" := PyObject [("threadIdx", PyMacro "threadIdx" 1 false PyNone);
                        ("syncthreads", PyMacro "syncthreads" 2 true (PyList []));
                        ("warpsize", PyInt 32)]]>
  (<["sync" := PyMacro "syncthreads" 2 true (PyList [])]>
  (<["shared" := PyMacro "shared.array" 3 true (PyList [PyStr "shape"])]>
  (<["skip" := PyMacro "skip" 4 true (PyList [])]>
  (<["flag" := PyMacro "flag" 5 true (PyList [])]>
  (<["n" := PyInt 4]> ∅))))).

Definition example_block : list inst :=
  [Assign (Global "numba" (PyObject [("cuda", PyObject [("warpsize", PyInt 32)])])
                  example_loc) (example_var "m") example_loc;
   Assign (ExprGetattr (example_var "m") "cuda" example_loc)
          (example_var "c") example_loc;
   Assign (ExprCall (CVar (example_var "f")) [example_var "c"] [] example_loc)
          (example_var "r") example_loc;
   Stmt example_loc].

(** The name Python gives the type of a value in an error message. *)
Definition type_name (v : pyval) : string :=
  match v with
  | PyNone => "NoneType"
  | PyBool _ => "bool"
  | PyInt _ => "int"
  | PyStr _ => "str"
  | PyFunction _ => "function"
  | PyList _ => "list"
  | PyObject _ => "module"
  | PyMacro _ _ _ _ => "Macro"
  end.

(** Builtin attributes for the examples: [real] of an integer is the
    integer; every other lookup fails the way Python reports it. *)
Definition example_builtin_getattr (base : pyval) (attr : string) : outcome pyval :=
  match base with
  | PyInt z =>
      if String.eqb attr "real" then Return (PyInt z)
      else Raise (mkExc AttributeError
                    ("'int' object has no attribute " ++ repr_str attr))
  | _ =>
      Raise (mkExc AttributeError
               ("'" ++ type_name base ++ "' object has no attribute " ++ repr_str attr))
  end.

(** Macro function 2 returns the object 7 (one object, whoever calls),
    function 3 raises, function 5 returns [True], any other returns
    [None]. *)
Definition example_runtime : Runtime := {|
  call_func f args kws :=
    match f with
    | 2 => Return (RObject 7)
    | 3 => Raise (mkExc (OtherError "ValueError") "shape must be constant")
    | 5 => Return (RBool true)
    | _ => Return RNone
    end;
  str_loc loc := filename loc;
  builtin_getattr := example_builtin_getattr;
  object_truth _ := Return true;
  setattr_loc _ _ := Return ();
  object_name _ := "ptx.syncthreads";
  None_has_no_Macro attr v E :=
    match E in _ = r return match r with Return v => is_Macro v = false | Raise _ => True end
    with eq_refl => I end
|}.

(** *** Vocabulary of the further properties *)

(** [name] is bound in the pool to an instance of [Macro]. *)
Definition macro_bound (constants : pool) (name : string) : bool :=
  match constants !! name with
  | Some v => is_Macro v
  | None => false
  end.

(** An instruction for which [expand_macros_in_block] finds nothing to look
    at: no assignment, an assignment of something that is neither a call
    nor a getattr, a call whose callee name is not bound to a Macro, or a
    getattr whose base name is unbound or bound to [None]. *)
Definition inert `{Runtime} (constants : pool) (i : inst) : bool :=
  match i with
  | Assign (ExprCall callee _ _ _) _ _ =>
      negb (macro_bound constants (callee_name callee))
  | Assign (ExprGetattr v _ _) _ _ =>
      match constants !! var_name v with
      | None | Some PyNone => true
      | Some _ => false
      end
  | _ => true
  end.

(** [i'] is [i], or it is [i] with the right-hand side replaced by a call
    of a function object: target and location of the assignment are
    kept. *)
Definition rewritten (i i' : inst) : Prop :=
  i' = i ∨
  ∃ r target loc func args kws rloc,
    i = Assign r target loc ∧
    is_function_object func = true ∧
    i' = Assign (ExprCall func args kws rloc) target loc.

(** The names the assignments of a block assign to. *)
Definition assigned (body : list inst) : list string :=
  omap (λ i, match i with
             | Assign _ target _ => Some (var_name target)
             | Stmt _ => None
             end) body.

End Macro.


(** ** numba/exttypes/compileclass.py *)

Module CompileClass.

(** A [minitypes.Type], by name. *)
Definition ty := string.

(** A method signature: [method.signature], [func_env.func_signature] and
    the [ExtMethodType] entries of a vtab type. *)
Record Signature := mkSignature { return_type : ty; args : list ty }.

(** A [Method] object. Python compares and hashes it by identity, which
    [method_id] stands for. *)
Record Method := mkMethod {
  method_id : nat;
  method_name : string;
  py_func : nat;
  signature : Signature
}.

#[global] Instance Signature_eq_dec : EqDecision Signature.
Proof. solve_decision. Defined.
#[global] Instance Method_eq_dec : EqDecision Method.
Proof. solve_decision. Defined.

(** The opaque artifact of the type-inference pipeline. *)
Record FuncEnv := mkFuncEnv { func_env_id : nat; func_signature : Signature }.

(** *** Table types

    Modelled from the spec: [attributestype.ExtensionAttributesTableType]
    and [vtabtype.VTabType] are not in the sources at hand. Each is
    constructed from the list of parent tables and starts with an empty
    dictionary ([attributedict], [methoddict]). A parent entry is whatever
    the parent's [attribute_table] / [vtab_type] attribute holds, [None]
    included. *)
Inductive AttributeTable := mkAttributeTable {
  attr_parents : list (option AttributeTable);
  attributedict : gmap string ty
}.

Inductive VTabType := mkVTabType {
  vtab_parents : list (option VTabType);
  methoddict : gmap string Signature
}.

Definition ExtensionAttributesTableType (parents : list (option AttributeTable))
  : AttributeTable := mkAttributeTable parents ∅.

Definition new_VTabType (parents : list (option VTabType)) : VTabType :=
  mkVTabType parents ∅.

(** *** Extension types and the classes they come from

    [class_bases] is the class's [__bases__] and [numba_bases] is what
    [utils.get_numba_bases] returns for the class.
    A class object may or may not have an attribute called [exttype] and
    one called [ext_type]; [None] stands for a missing attribute. *)
Inductive ExtType := mkExtType {
  py_class : PyClass;
  attribute_table : option AttributeTable;
  vtab_type : option VTabType
}
with PyClass := mkPyClass {
  class_name : string;
  class_bases : list PyClass;
  numba_bases : list PyClass;
  cls_exttype : option ExtType;
  cls_ext_type : option ExtType
}.

Definition set_attribute_table (e : ExtType) (t : option AttributeTable) : ExtType :=
  mkExtType (py_class e) t (vtab_type e).

Definition set_vtab_type (e : ExtType) (v : option VTabType) : ExtType :=
  mkExtType (py_class e) (attribute_table e) v.

(** The objects that reach [inherit_attributes] and [inherit_methods]. *)
Inductive pyobj :=
| ONone
| OExtType (e : ExtType)
| OAttributeTable (t : AttributeTable)
| OVTabType (v : VTabType).

(** The [AttributeError] of a failed attribute lookup. The message names
    the attribute and leaves out the type of the object. *)
Definition attribute_error {A} (attr : string) : outcome A :=
  Raise (mkExc AttributeError ("object has no attribute " ++ repr_str attr)).

Definition of_table (t : option AttributeTable) : pyobj :=
  match t with Some t => OAttributeTable t | None => ONone end.

Definition of_vtab (v : option VTabType) : pyobj :=
  match v with Some v => OVTabType v | None => ONone end.

(** [o.attribute_table] *)
Definition get_attribute_table (o : pyobj) : outcome pyobj :=
  match o with
  | OExtType e => Return (of_table (attribute_table e))
  | _ => attribute_error "attribute_table"
  end.

(** [o.vtab_type] *)
Definition get_vtab_type (o : pyobj) : outcome pyobj :=
  match o with
  | OExtType e => Return (of_vtab (vtab_type e))
  | _ => attribute_error "vtab_type"
  end.

(** [o.attributedict] *)
Definition get_attributedict (o : pyobj) : outcome (gmap string ty) :=
  match o with
  | OAttributeTable t => Return (attributedict t)
  | _ => attribute_error "attributedict"
  end.

(** [o.methoddict] *)
Definition get_methoddict (o : pyobj) : outcome (gmap string Signature) :=
  match o with
  | OVTabType v => Return (methoddict v)
  | _ => attribute_error "methoddict"
  end.

(** [base.exttype] and [base.ext_type] on a class object. *)
Definition get_exttype (base : PyClass) : outcome ExtType :=
  match cls_exttype base with
  | Some e => Return e
  | None => attribute_error "exttype"
  end.

Definition get_ext_type (base : PyClass) : outcome ExtType :=
  match cls_ext_type base with
  | Some e => Return e
  | None => attribute_error "ext_type"
  end.

(** *** [AttributesInheriter] *)

(** [inherit_attributes]: the dictionary reached through
    [derived_ext_type.attribute_table] is updated in place, so the derived
    object is returned as it is left. *)
Definition inherit_attributes (derived_ext_type base_ext_type : pyobj)
  : outcome pyobj :=
  table ← get_attribute_table derived_ext_type;
  d ← get_attributedict table;
  base_table ← get_attribute_table base_ext_type;
  base_d ← get_attributedict base_table;
  match derived_ext_type, table with
  | OExtType e, OAttributeTable t =>
      Return (OExtType (set_attribute_table e
                (Some (mkAttributeTable (attr_parents t) (dict_update d base_d)))))
  | _, _ => Return derived_ext_type
  end.

(** [inherit_methods] *)
Definition inherit_methods (derived_ext_type base_ext_type : pyobj)
  : outcome pyobj :=
  vtable ← get_vtab_type derived_ext_type;
  d ← get_methoddict vtable;
  base_vtable ← get_vtab_type base_ext_type;
  base_d ← get_methoddict base_vtable;
  match derived_ext_type, vtable with
  | OExtType e, OVTabType v =>
      Return (OExtType (set_vtab_type e
                (Some (mkVTabType (vtab_parents v) (dict_update d base_d)))))
  | _, _ => Return derived_ext_type
  end.

(** A [for base in bases] loop whose body passes the object being built to
    [step] together with [base.ext_type]. *)
Fixpoint inherit_loop (step : pyobj → pyobj → outcome pyobj)
    (table : pyobj) (bases : list PyClass) : outcome pyobj :=
  match bases with
  | [] => Return table
  | base :: bases' =>
      base_ext_type ← get_ext_type base;
      table' ← step table (OExtType base_ext_type);
      inherit_loop step table' bases'
  end.

(** [build_attribute_table]: the function body ends after the loop, so
    the value of the call is [None]. *)
Definition build_attribute_table (ext_type : ExtType)
  : outcome (option AttributeTable) :=
  let bases := numba_bases (py_class ext_type) in
  parent_attrtables ←
    comprehension (λ base, e ← get_exttype base; Return (attribute_table e)) bases;
  let attr_table := ExtensionAttributesTableType parent_attrtables in
  _ ← inherit_loop inherit_attributes (OAttributeTable attr_table) bases;
  Return None.

(** [build_method_table]: likewise. *)
Definition build_method_table (ext_type : ExtType)
  : outcome (option VTabType) :=
  let bases := numba_bases (py_class ext_type) in
  parent_vtables ←
    comprehension (λ base, e ← get_exttype base; Return (vtab_type e)) bases;
  let vtable := new_VTabType parent_vtables in
  _ ← inherit_loop inherit_methods (OVTabType vtable) bases;
  Return None.

(** [inherit]: [ext_type] is returned as the call leaves it. *)
Definition inherit (ext_type : ExtType) : outcome unit * ExtType :=
  match build_attribute_table ext_type with
  | Raise e => (Raise e, ext_type)
  | Return attr_table =>
      let ext_type := set_attribute_table ext_type attr_table in
      match build_method_table ext_type with
      | Raise e => (Raise e, ext_type)
      | Return vtable => (Return (), set_vtab_type ext_type vtable)
      end
  end.

(** The entry of [name] in the attribute dictionary / method dictionary of
    an extension type. *)
Definition attribute_entry (o : pyobj) (name : string) : option ty :=
  match o with
  | OExtType e => t ← attribute_table e; attributedict t !! name
  | _ => None
  end.

Definition method_entry (o : pyobj) (name : string) : option Signature :=
  match o with
  | OExtType e => v ← vtab_type e; methoddict v !! name
  | _ => None
  end.

(** *** [ExtensionCompiler] *)

(** A value of the working class dictionary. *)
Inductive member :=
| MNone
| MMethod (m : Method)
| MFunction (f : nat)
| MType (t : ty)
| MClass (c : PyClass).

(** A positional argument of a call of [type_infer_method]. *)
Inductive arg :=
| AMember (m : member)
| AStr (s : string).

(** An instance attribute: not yet assigned, [None], or a value. *)
Inductive slot (A : Type) :=
| Unset
| IsNone
| Value (a : A).
Arguments Unset {A}.
Arguments IsNone {A}.
Arguments Value {A} a.

(** Calls that leave this module, in the order in which they happen. The
    log is ghost state: no function reads it. *)
Inductive event :=
| EInherit
| EClassAttributeTypes
| EMethodSignatures
| EInferBegin (m : Method)
| EInferEnd (m : Method)
| EBuildAttributes
| EBuildVtabType
| EValidate (i : nat)
| EBuildVtab
| ECreateType.

#[global] Instance event_eq_dec : EqDecision event.
Proof. solve_decision. Defined.

Definition Validator := ExtType → outcome unit.

(** The native artifacts: method pointers, llvm functions, the populated
    vtab and the finished extension type are opaque. *)
Definition pointer := nat.
Definition lfunc := nat.
Definition vtab := nat.
Definition extension_type := nat.

(** The collaborators the compiler is constructed with or imports. Each
    may raise; one that works on the extension type returns it as it
    leaves it. *)
Class Collaborators := {
  (* self.inheriter.inherit(ext_type, class_dict) *)
  inheriter_inherit : ExtType → gmap string member → outcome unit * ExtType;
  (* self.inheriter.process_class_attribute_types(ext_type, class_dict) *)
  inheriter_process_class_attribute_types :
    ExtType → gmap string member → outcome unit * ExtType;
  (* signatures.MethodSignatureProcessor(...).get_method_signatures() *)
  get_method_signatures :
    gmap string member → ExtType → outcome (list Method * list Signature);
  (* ext_type.add_method(name, signature) *)
  add_method : ExtType → string → Signature → outcome unit * ExtType;
  (* pipeline.compile2(env, func, return_type, args, pipeline_name='type_infer', **flags) *)
  compile2 : nat → nat → ty → list ty → list (string * nat) → outcome FuncEnv;
  (* self.attrbuilder.build_attributes(ext_type) *)
  build_attributes : ExtType → outcome unit * ExtType;
  (* self.vtabbuilder.build_vtab_type(ext_type) *)
  build_vtab_type : ExtType → outcome unit * ExtType;
  (* the class attribute exttype_validators: None unless a subclass sets it *)
  exttype_validators : option (list Validator);
  (* self.vtabbuilder.build_vtab(ext_type, method_pointers) *)
  build_vtab : ExtType → list pointer → outcome vtab;
  (* extension_types.create_new_extension_type(...) *)
  create_new_extension_type :
    string → list PyClass → gmap string member → ExtType → vtab →
    option VTabType → list lfunc → list pointer → outcome extension_type
}.

Record ExtensionCompiler := mkCompiler {
  env : nat;
  flags : list (string * nat);
  self_py_class : PyClass;
  class_dict : gmap string member;
  ext_type : ExtType;
  func_envs : list (Method * FuncEnv);
  methods : slot (list Method);
  method_types : slot (list Signature);
  log : list event
}.

Definition set_class_dict (self : ExtensionCompiler) d :=
  mkCompiler (env self) (flags self) (self_py_class self) d (ext_type self) (func_envs self)
             (methods self) (method_types self) (log self).
Definition set_ext_type (self : ExtensionCompiler) e :=
  mkCompiler (env self) (flags self) (self_py_class self) (class_dict self) e (func_envs self)
             (methods self) (method_types self) (log self).
Definition set_func_envs (self : ExtensionCompiler) f :=
  mkCompiler (env self) (flags self) (self_py_class self) (class_dict self) (ext_type self) f
             (methods self) (method_types self) (log self).
Definition set_methods (self : ExtensionCompiler) ms mts :=
  mkCompiler (env self) (flags self) (self_py_class self) (class_dict self) (ext_type self) (func_envs self)
             ms mts (log self).
Definition emit (ev : event) (self : ExtensionCompiler) :=
  mkCompiler (env self) (flags self) (self_py_class self) (class_dict self) (ext_type self) (func_envs self)
             (methods self) (method_types self) (log self ++ [ev]).

(** [d[k] = v] on a dictionary keyed by object identity. *)
Fixpoint setitem (d : list (Method * FuncEnv)) (k : Method) (v : FuncEnv)
  : list (Method * FuncEnv) :=
  match d with
  | [] => [(k, v)]
  | (k', v') :: d' =>
      if decide (k' = k) then (k, v) :: d' else (k', v') :: setitem d' k v
  end.

(** A computation on the compiler object: its outcome and the object as it
    is left. *)
Definition M (A : Type) := ExtensionCompiler → outcome A * ExtensionCompiler.

Definition and_then {A B} (m : M A) (k : A → M B) : M B := λ self,
  match m self with
  | (Return a, self') => k a self'
  | (Raise e, self') => (Raise e, self')
  end.

Definition ret {A} (a : A) : M A := λ self, (Return a, self).

Notation "m1 >> m2" := (and_then m1 (λ _, m2))
  (at level 100, m2 at level 200, right associativity).
Notation "'do' x ← m 'in' k" := (and_then m (λ x, k))
  (at level 10, x name, m at level 100, k at level 200).

(** A call of a collaborator that works on [self.ext_type]. *)
Definition on_ext_type (ev : event) (f : ExtType → outcome unit * ExtType) : M unit :=
  λ self,
    let self := emit ev self in
    let '(r, e) := f (ext_type self) in
    (r, set_ext_type self e).

Section Compiler.
Context `{Collaborators}.

(** **** Type inference *)

Definition infer_attributes : M unit :=
  (λ self, on_ext_type EInherit
             (λ e, inheriter_inherit e (class_dict self)) self)
  >>
  (λ self, on_ext_type EClassAttributeTypes
             (λ e, inheriter_process_class_attribute_types e (class_dict self)) self).

(** The loop of [process_method_signatures] over
    [zip(self.methods, self.method_types)]. *)
Fixpoint add_methods (pairs : list (Method * Signature)) : M unit :=
  match pairs with
  | [] => ret ()
  | (method, method_type) :: pairs' =>
      (λ self,
         let '(r, e) := add_method (ext_type self) (method_name method) method_type in
         (r, set_ext_type self e))
      >>
      (λ self,
         (Return (),
          set_class_dict self (<[method_name method := MMethod method]> (class_dict self))))
      >>
      add_methods pairs'
  end.

Definition process_method_signatures : M unit := λ self,
  let self := emit EMethodSignatures self in
  match get_method_signatures (class_dict self) (ext_type self) with
  | Raise e => (Raise e, self)
  | Return (ms, mts) =>
      add_methods (zip ms mts) (set_methods self (Value ms) (Value mts))
  end.

(** The body of [type_infer_method(self, method)]. Reading [py_func] on
    anything but a [Method] raises. *)
Definition type_infer_method (method : arg) : M unit := λ self,
  match method with
  | AMember (MMethod m) =>
      let self := emit (EInferBegin m) self in
      match compile2 (env self) (py_func m) (return_type (signature m))
                     (args (signature m)) (flags self) with
      | Raise e => (Raise e, self)
      | Return func_env =>
          let self := emit (EInferEnd m) self in
          let self := set_func_envs self (setitem (func_envs self) m func_env) in
          let '(r, e) :=
            add_method (ext_type self) (method_name m) (func_signature func_env) in
          (r, set_ext_type self e)
      end
  | _ => (attribute_error "py_func", self)
  end.

(** A call [self.type_infer_method(...)] with the given positional
    arguments: the function has one parameter besides [self], and a call
    with another number of arguments raises [TypeError] before the body
    runs. *)
Definition call_type_infer_method (positional : list arg) : M unit :=
  match positional with
  | [method] => type_infer_method method
  | _ => λ self,
      (Raise (mkExc TypeError
                ("type_infer_method() takes exactly 2 arguments (" ++
                 pretty (S (length positional)) ++ " given)")),
       self)
  end.

Definition type_infer_init_method : M unit := λ self,
  match class_dict self !! "__init__" with
  | None | Some MNone => (Return (), self)
  | Some initfunc =>
      call_type_infer_method [AMember initfunc; AStr "__init__"] self
  end.

(** [method.name in ('__new__', '__init__')] *)
Definition is_new_or_init (name : string) : bool :=
  bool_decide (name = "__new__") || bool_decide (name = "__init__").

Fixpoint type_infer_loop (ms : list Method) : M unit :=
  match ms with
  | [] => ret ()
  | method :: ms' =>
      if is_new_or_init (method_name method) then type_infer_loop ms'
      else call_type_infer_method [AMember (MMethod method)] >> type_infer_loop ms'
  end.

Definition type_infer_methods : M unit := λ self,
  match methods self with
  | Unset => (attribute_error "methods", self)
  | IsNone => (Raise (mkExc TypeError "'NoneType' object is not iterable"), self)
  | Value ms => type_infer_loop ms self
  end.

Definition infer : M unit :=
  infer_attributes
  >>
  process_method_signatures
  >>
  type_infer_init_method
  >>
  on_ext_type EBuildAttributes build_attributes
  >>
  type_infer_methods
  >>
  on_ext_type EBuildVtabType build_vtab_type
  >>
  (λ self, (Return (), set_methods self IsNone IsNone)).

(** **** Validate *)

Fixpoint validate_loop (i : nat) (validators : list Validator) : M unit :=
  match validators with
  | [] => ret ()
  | validator :: validators' =>
      (λ self,
         let self := emit (EValidate i) self in
         (validator (ext_type self), self))
      >>
      validate_loop (S i) validators'
  end.

Definition validate : M unit := λ self,
  match exttype_validators with
  | None => (Raise (mkExc TypeError "'NoneType' object is not iterable"), self)
  | Some validators => validate_loop 0 validators self
  end.

(** **** Compilation *)

(** [compile_methods] has a docstring and no statement: the value of the
    call is [None]. *)
Definition compile_methods : M (option (list pointer * list lfunc)) :=
  ret None.

Definition build_extension_type (lmethods : list lfunc)
    (method_pointers : list pointer) (vt : vtab) : M extension_type := λ self,
  let self := emit ECreateType self in
  (create_new_extension_type
     (class_name (self_py_class self)) (class_bases (self_py_class self))
     (class_dict self) (ext_type self) vt (vtab_type (ext_type self))
     lmethods method_pointers,
   self).

Definition compile : M extension_type :=
  (λ self,
     (Return (),
      set_class_dict self
        (<["__numba_py_class" := MClass (self_py_class self)]> (class_dict self))))
  >>
  do unpacked ← compile_methods in
  match unpacked with
  | None => λ self,
      (Raise (mkExc TypeError "'NoneType' object is not iterable"), self)
  | Some (method_pointers, lmethods) =>
      do vt ← (λ self,
                 let self := emit EBuildVtab self in
                 (build_vtab (ext_type self) method_pointers, self)) in
      build_extension_type lmethods method_pointers vt
  end.

End Compiler.

(** *** Vocabulary of the properties *)

(** The calls a computation adds to the log. *)
Definition events_of {A} (m : M A) (self : ExtensionCompiler) : list event :=
  drop (length (log self)) (log (m self).2).

Definition extend_log (evs : list event) (self : ExtensionCompiler) :=
  mkCompiler (env self) (flags self) (self_py_class self) (class_dict self)
             (ext_type self) (func_envs self) (methods self) (method_types self)
             (log self ++ evs).


(** The methods that are neither [__new__] nor [__init__]. *)
Definition other_methods (ms : list Method) : list Method :=
  filter (λ m, is_new_or_init (method_name m) = false) ms.

(** The log of a later pass in which every inference returns. *)
Definition inference_events (ms : list Method) : list event :=
  flat_map (λ m, [EInferBegin m; EInferEnd m]) (other_methods ms).

(** The compiler object once [infer] has processed the method
    signatures. *)
Definition signatures_processed `{Collaborators} (self : ExtensionCompiler)
  : ExtensionCompiler :=
  ((infer_attributes >> process_method_signatures) self).2.

(** What [infer] does once the method signatures are processed. *)
Definition after_signatures `{Collaborators} : M unit :=
  type_infer_init_method
  >>
  on_ext_type EBuildAttributes build_attributes
  >>
  type_infer_methods
  >>
  on_ext_type EBuildVtabType build_vtab_type
  >>
  (λ self, (Return (), set_methods self IsNone IsNone)).

(** The log of a call of [infer] in which no stage raises. *)
Definition schedule (ms : list Method) : list event :=
  ([EInherit; EClassAttributeTypes; EMethodSignatures] ++
   EBuildAttributes :: inference_events ms ++ [EBuildVtabType])%list.

(** [m] adds to the log a prefix of [full], and all of [full] when it
    returns. *)
Definition logs_within {A} (m : M A) (self : ExtensionCompiler)
    (full : list event) : Prop :=
  ∃ tr : list event,
    log (m self).2 = (log self ++ tr)%list ∧
    tr `prefix_of` full ∧
    (∀ a, (m self).1 = Return a → tr = full).

(** In the words of the spec: every validator of the set is run (no
    short-circuit within the set), and every failure is part of what is
    surfaced to the caller. *)
Definition runs_every_validator `{Collaborators} (self : ExtensionCompiler) : Prop :=
  ∀ validators, exttype_validators = Some validators →
    ∀ i, i < length validators → EValidate i ∈ events_of validate self.

Definition surfaces_every_failure `{Collaborators} (self : ExtensionCompiler) : Prop :=
  ∀ validators, exttype_validators = Some validators →
    ∀ i validator failure,
      validators !! i = Some validator →
      validator (ext_type self) = Raise failure →
      ∃ diagnostic before after,
        (validate self).1 = Raise diagnostic ∧
        exc_msg diagnostic = before +:+ exc_msg failure +:+ after.

(** *** A class with two methods, used to exercise the compiler *)

Definition example_class : PyClass := mkPyClass "Point" [] [] None None.
Definition example_ext_type : ExtType := mkExtType example_class None None.

Definition double_sig : Signature := mkSignature "double" ["Point"].
Definition norm : Method := mkMethod 1 "norm" 11 double_sig.
Definition scale : Method := mkMethod 2 "scale" 12 double_sig.
Definition init : Method := mkMethod 3 "__init__" 13 (mkSignature "void" ["Point"]).

Definition collides : Validator := λ _,
  Raise (mkExc (OtherError "ValidationError") "attribute name collides with a method name").
Definition abstract : Validator := λ _,
  Raise (mkExc (OtherError "ValidationError")
               "abstract method scale of class Point has no concrete override").
Definition accepts : Validator := λ _, Return ().

Definition example_collaborators_with (validators : list Validator)
    (ms : list Method) : Collaborators := {|
  inheriter_inherit e _ := (Return (), e);
  inheriter_process_class_attribute_types e _ := (Return (), e);
  get_method_signatures _ _ := Return (ms, signature <$> ms);
  add_method e _ _ := (Return (), e);
  compile2 _ f rt a _ := Return (mkFuncEnv f (mkSignature rt a));
  build_attributes e := (Return (), e);
  build_vtab_type e := (Return (), e);
  exttype_validators := Some validators;
  build_vtab _ _ := Return 0;
  create_new_extension_type _ _ _ _ _ _ _ _ := Return 0
|}.

Definition example_collaborators : list Method → Collaborators :=
  example_collaborators_with [collides; abstract].

Definition example_compiler (d : gmap string member) (ms : slot (list Method))
  : ExtensionCompiler :=
  mkCompiler 0 [] example_class d example_ext_type [] ms Unset [].

(** Two compiled parents that both have an attribute and a method called
    [norm], with different types and signatures, and a derived
    type with the fresh tables that are to receive their entries. *)
Definition parent_A : ExtType :=
  mkExtType (mkPyClass "A" [] [] None None)
    (Some (mkAttributeTable [] (<["norm" := "int32"]> (<["y" := "double"]> ∅))))
    (Some (mkVTabType [] (<["norm" := mkSignature "int32" ["A"]]> ∅))).
Definition parent_B : ExtType :=
  mkExtType (mkPyClass "B" [] [] None None)
    (Some (mkAttributeTable [] (<["norm" := "double"]> ∅)))
    (Some (mkVTabType [] (<["norm" := double_sig]> ∅))).
Definition class_A : PyClass := mkPyClass "A" [] [] (Some parent_A) (Some parent_A).
Definition class_B : PyClass := mkPyClass "B" [] [] (Some parent_B) (Some parent_B).
Definition derived_class : PyClass := mkPyClass "D" [class_A; class_B] [class_A; class_B] None None.
Definition derived : ExtType :=
  mkExtType derived_class
    (Some (ExtensionAttributesTableType [attribute_table parent_A; attribute_table parent_B]))
    (Some (new_VTabType [vtab_type parent_A; vtab_type parent_B])).

(** *** The rest of the module *)

(** [symtab.Variable(type, promotable_type=...)] *)
Record symtab_Variable := mkVariable { variable_type : ty; promotable_type : bool }.

(** [process_class_attribute_types(ext_type, class_dict)]: the loop over
    [class_dict.iteritems()] writes into [ext_type.symtab], the dictionary
    that is passed and returned here. The entries of a dictionary have
    distinct keys, so the order of the iteration does not show in the
    result. *)
Definition process_class_attribute_types
    (symtab : gmap string symtab_Variable) (class_dict : gmap string member)
  : gmap string symtab_Variable :=
  map_fold (λ name value symtab,
              match value with
              | MType t => <[name := mkVariable t false]> symtab
              | _ => symtab
              end) symtab class_dict.

(** [AttributeBuilder.build_descriptors]: the loop over
    [ext_type.symtab.iteritems()] writes into [class_dict], which is
    returned. [create_descr] is the method of that name, overridden by the
    builders that are used; descriptors are values of the class dictionary. *)
Definition build_descriptors {S V} (create_descr : string → V)
    (symtab : gmap string S) (class_dict : gmap string V) : gmap string V :=
  map_fold (λ attr_name _ class_dict, <[attr_name := create_descr attr_name]> class_dict)
           class_dict symtab.

(** [AttributeBuilder.create_descr] as this module has it: a docstring and
    no statement, so the value of the call is [None]. *)
Definition create_descr (attr_name : string) : member := MNone.

(** [d[k]] on the dictionary of function environments; [None] stands for
    a missing key. *)
Fixpoint getitem (d : list (Method * FuncEnv)) (k : Method) : option FuncEnv :=
  match d with
  | [] => None
  | (k', v) :: d' => if decide (k' = k) then Some v else getitem d' k
  end.

(** A positional argument of a call of [AttributesInheriter.inherit]. *)
Inductive inheriter_arg :=
| IExtType (e : ExtType)
| IClassDict (d : gmap string member).

(** A call [inheriter.inherit(...)] on an [AttributesInheriter] with the
    given positional arguments; [ext_type] is the extension type the caller
    holds, returned as the call leaves it. [inherit] has one parameter
    besides [self]; a class dictionary has no [py_class]. *)
Definition call_inherit (positional : list inheriter_arg) (ext_type : ExtType)
  : outcome unit * ExtType :=
  match positional with
  | [IExtType e] => inherit e
  | [IClassDict _] => (attribute_error "py_class", ext_type)
  | _ =>
      (Raise (mkExc TypeError
                ("inherit() takes exactly 2 arguments (" ++
                 pretty (S (length positional)) ++ " given)")),
       ext_type)
  end.

(** [self.inheriter.inherit(self.ext_type, self.class_dict)], the call made
    by [infer_attributes], when [self.inheriter] is an
    [AttributesInheriter]. *)
Definition AttributesInheriter_inherit (ext_type : ExtType)
    (class_dict : gmap string member) : outcome unit * ExtType :=
  call_inherit [IExtType ext_type; IClassDict class_dict] ext_type.

(** [m] removes no entry from [self.func_envs]. *)
Definition keeps_func_envs {A} (m : M A) : Prop :=
  ∀ self k,
    is_Some (getitem (func_envs self) k) →
    is_Some (getitem (func_envs (m self).2) k).

(** The names of the methods of a list. *)
Definition method_names (ms : list Method) : list string := method_name <$> ms.

Definition example_collaborators_inheriter (ms : list Method) : Collaborators := {|
  inheriter_inherit := AttributesInheriter_inherit;
  inheriter_process_class_attribute_types e _ := (Return (), e);
  get_method_signatures _ _ := Return (ms, signature <$> ms);
  add_method e _ _ := (Return (), e);
  compile2 _ f rt a _ := Return (mkFuncEnv f (mkSignature rt a));
  build_attributes e := (Return (), e);
  build_vtab_type e := (Return (), e);
  exttype_validators := None;
  build_vtab _ _ := Return 0;
  create_new_extension_type _ _ _ _ _ _ _ _ := Return 0
|}.

End CompileClass.

(** ** Properties of the macro passes *)

Module MacroSpec.
Import Macro.
Local Open Scope list_scope.

Section Folding.
Context `{Runtime}.

Lemma fold_inst_cases constants i :
  fold_inst constants i = (Return (), constants) ∨
  (∃ e, fold_inst constants i = (Raise e, constants)) ∨
  (∃ r target loc x,
      i = Assign r target loc ∧ binding_rhs constants r = true ∧
      fold_inst constants i = (Return (), <[var_name target := x]> constants)).
Proof.
  destruct i as [r target loc|loc]; [|by left].
  destruct r; simpl; try (by left);
    try (right; right; eexists _, _, _, _; split_and!; [done..]).
  - destruct (constants !! var_name v) as [x|] eqn:E; [|by left].
    right; right. eexists _, _, _, x. split_and!; [done| |done].
    simpl. rewrite E. by apply bool_decide_eq_true_2.
  - destruct (constants !! var_name value) as [base|] eqn:E; [|by left].
    destruct (getattr base attr) as [x|e] eqn:G.
    + right; right. eexists _, _, _, x. split_and!; [done| |done].
      simpl. rewrite E. by apply bool_decide_eq_true_2.
    + right; left. by exists e.
Qed.

Lemma fold_inst_other constants i :
  binding_inst constants i = false →
  fold_inst constants i = (Return (), constants).
Proof.
  destruct i as [r target loc|loc]; [|done].
  destruct r; simpl; try done.
  - intros Hb. apply bool_decide_eq_false in Hb.
    destruct (constants !! var_name v) eqn:E; [|done].
    destruct Hb. by eexists.
  - intros Hb. apply bool_decide_eq_false in Hb.
    destruct (constants !! var_name value) eqn:E; [|done].
    destruct Hb. by eexists.
Qed.

End Folding.

Section Expansion.
Context `{Runtime}.

Lemma run_expand_reach constants pre pre' i post :
  expand_macros_in_block constants pre = (Return (), pre') →
  run_expand_macros_in_block constants (pre ++ i :: post) =
  match expand_inst constants i with
  | Return (i', w) =>
      ((expand_macros_in_block constants post).1,
       pre' ++ i' :: (expand_macros_in_block constants post).2,
       loc_writes constants pre ++ w ++ loc_writes constants post)
  | Raise e => (Raise e, pre' ++ i :: post, loc_writes constants pre)
  end.
Proof.
  unfold expand_macros_in_block, loc_writes.
  revert pre'. induction pre as [|j pre IH]; intros pre' Hpre; simpl in *.
  - injection Hpre as <-.
    destruct (expand_inst constants i) as [[i' w]|e]; [|done].
    by destruct (run_expand_macros_in_block constants post) as [[r post'] ws].
  - destruct (expand_inst constants j) as [[j' wj]|e]; [|done].
    destruct (run_expand_macros_in_block constants pre) as [[r pre''] ws] eqn:E.
    simpl in Hpre. injection Hpre as -> <-.
    rewrite (IH pre'' eq_refl).
    destruct (expand_inst constants i) as [[i' w]|e]; simpl; [|done].
    by rewrite <- app_assoc.
Qed.

Lemma expand_macros_in_block_cons constants i body :
  expand_macros_in_block constants (i :: body) =
  match expand_inst constants i with
  | Return (i', _) =>
      ((expand_macros_in_block constants body).1,
       i' :: (expand_macros_in_block constants body).2)
  | Raise e => (Raise e, i :: body)
  end.
Proof.
  unfold expand_macros_in_block. simpl.
  destruct (expand_inst constants i) as [[i' w]|e]; [|done].
  by destruct (run_expand_macros_in_block constants body) as [[r body'] ws].
Qed.

Lemma expand_block_reach constants pre pre' i post :
  expand_macros_in_block constants pre = (Return (), pre') →
  expand_macros_in_block constants (pre ++ i :: post) =
  match expand_inst constants i with
  | Return (i', _) =>
      ((expand_macros_in_block constants post).1,
       pre' ++ i' :: (expand_macros_in_block constants post).2)
  | Raise e => (Raise e, pre' ++ i :: post)
  end.
Proof.
  intros Hpre. unfold expand_macros_in_block at 1.
  rewrite (run_expand_reach _ _ _ _ _ Hpre).
  by destruct (expand_inst constants i) as [[i' w]|e].
Qed.

Lemma loc_writes_reach constants pre pre' i post :
  expand_macros_in_block constants pre = (Return (), pre') →
  loc_writes constants (pre ++ i :: post) =
  match expand_inst constants i with
  | Return (_, w) => loc_writes constants pre ++ w ++ loc_writes constants post
  | Raise e => loc_writes constants pre
  end.
Proof.
  intros Hpre. unfold loc_writes at 1.
  rewrite (run_expand_reach _ _ _ _ _ Hpre).
  by destruct (expand_inst constants i) as [[i' w]|e].
Qed.

Lemma expand_inst_getattr constants v attr rloc target iloc base value :
  constants !! var_name v = Some base →
  getattr base attr = Return value →
  expand_inst constants (Assign (ExprGetattr v attr rloc) target iloc) =
  Return
    (match value with
     | PyMacro name func false _ =>
         Assign (ExprCall (CIntrinsic (mkIntrinsic name (PyFunction func) [] None))
                          [] [] rloc) target iloc
     | _ => Assign (ExprGetattr v attr rloc) target iloc
     end, []).
Proof.
  intros Hbase Hget. simpl. rewrite Hbase.
  destruct base;
    [pose proof (None_has_no_Macro attr value Hget); by destruct value|..];
    rewrite Hget; simpl;
    by destruct value as [| | | | | | |? ? []].
Qed.

(** C9. When the loop of [expand_macros_in_block] reaches an assignment
    whose right-hand side is a getattr on a name bound in the constant
    pool, and the attribute looked up on the bound value is a Macro that
    is not callable, the right-hand side becomes a call, without
    arguments, of an [Intrinsic] built from the macro's name and
    function with an empty argument tuple; the call carries the
    location of the getattr. When the attribute value is a callable
    Macro or no Macro at all, the instruction stays as it is. In both
    cases the loop goes on with the rest of the block. *)
Theorem expand_getattr_of_macro
    (constants : pool) (pre pre' post : list inst)
    (v : Var) (attr : string) (rloc : Loc) (target : Var) (iloc : Loc)
    (base value : pyval) :
  expand_macros_in_block constants pre = (Return (), pre') →
  constants !! var_name v = Some base →
  getattr base attr = Return value →
  let i := Assign (ExprGetattr v attr rloc) target iloc in
  let rest := expand_macros_in_block constants post in
  (∀ name func argnames,
      value = PyMacro name func false argnames →
      expand_macros_in_block constants (pre ++ i :: post) =
      (rest.1,
       pre' ++ Assign (ExprCall (CIntrinsic (mkIntrinsic name (PyFunction func) [] None))
                                [] [] rloc) target iloc :: rest.2)) ∧
  ((is_Macro value = false ∨
    ∃ name func argnames, value = PyMacro name func true argnames) →
      expand_macros_in_block constants (pre ++ i :: post) =
      (rest.1, pre' ++ i :: rest.2)).
Proof.
  intros Hpre Hbase Hget i rest. subst i rest.
  rewrite (expand_block_reach _ _ _ _ _ Hpre).
  rewrite (expand_inst_getattr _ _ _ _ _ _ _ _ Hbase Hget).
  split.
  - by intros name func argnames ->.
  - intros [Hno|(name & func & argnames & ->)]; [|done].
    by destruct value.
Qed.

Lemma expand_inst_call constants callee args kws rloc target iloc
    name func argnames args' kws' :
  constants !! callee_name callee = Some (PyMacro name func true argnames) →
  positional_args constants args = Return args' →
  keyword_args constants kws = Return kws' →
  expand_inst constants (Assign (ExprCall callee args kws rloc) target iloc) =
  match call_func func args' kws' with
  | Raise e => Raise (macro_error iloc e)
  | Return result =>
      b ← truthy result;
      if b : bool then
        match result with
        | RObject o =>
            _ ← setattr_loc o rloc;
            Return (Assign (ExprCall (CObject o) args kws rloc) target iloc,
                    [(o, rloc)])
        | _ => Raise (no_attribute_loc result)
        end
      else Return (Assign (ExprCall callee args kws rloc) target iloc, [])
  end.
Proof.
  intros Hmacro Hargs Hkws. simpl. rewrite Hmacro, Hargs. simpl.
  rewrite Hkws. simpl.
  by destruct (call_func func args' kws').
Qed.

(** C8. When the loop of [expand_macros_in_block] reaches a call whose
    callee name is bound in the constant pool to a callable Macro, the
    macro's function is called on the pool values of the arguments.
    - If that call raises, the pass raises [MacroError] with the message
      "Macro expansion failed at", the location of the instruction, a
      colon, a line break and the message of the exception that was
      raised.
    - If the call returns a falsy result, the instruction stays as it is
      and the loop goes on.
    - If it returns a truthy object that takes the attribute [loc], the
      location of the original call is written into that object, in
      place, and the right-hand side becomes a call of the object with
      the original arguments and keywords, at the location of the
      original call; the loop goes on.
    - If it returns a truthy builtin value (a bool, a number, a string,
      a list), which takes no attribute, the pass raises
      [AttributeError], not [MacroError], and the instruction stays as
      it is.
    - If it returns an object whose truth value or whose assignment of
      [loc] raises, the pass raises that exception as it is and the
      instruction stays as it is.
    In every case the writes made into returned objects are those of the
    instructions before, then the one of this call if it made one, then
    those of the instructions after if the loop goes on. *)
Theorem expand_call_of_macro
    (constants : pool) (pre pre' post : list inst)
    (callee : callee) (args : list Var) (kws : list (string * Var))
    (rloc : Loc) (target : Var) (iloc : Loc)
    (name : string) (func : fid) (argnames : pyval)
    (args' : list pyval) (kws' : gmap string pyval) :
  expand_macros_in_block constants pre = (Return (), pre') →
  constants !! callee_name callee = Some (PyMacro name func true argnames) →
  positional_args constants args = Return args' →
  keyword_args constants kws = Return kws' →
  let i := Assign (ExprCall callee args kws rloc) target iloc in
  let rest := expand_macros_in_block constants post in
  let before := loc_writes constants pre in
  let after := loc_writes constants post in
  (∀ e, call_func func args' kws' = Raise e →
      expand_macros_in_block constants (pre ++ i :: post) =
      (Raise (mkExc MacroError
                (("Macro expansion failed at " +:+ str_loc iloc) +:+ ":" +:+
                 newline +:+ exc_msg e)),
       pre' ++ i :: post) ∧
      loc_writes constants (pre ++ i :: post) = before) ∧
  (∀ result, call_func func args' kws' = Return result →
      truthy result = Return false →
      expand_macros_in_block constants (pre ++ i :: post) =
      (rest.1, pre' ++ i :: rest.2) ∧
      loc_writes constants (pre ++ i :: post) = before ++ after) ∧
  (∀ o, call_func func args' kws' = Return (RObject o) →
      object_truth o = Return true →
      setattr_loc o rloc = Return () →
      expand_macros_in_block constants (pre ++ i :: post) =
      (rest.1,
       pre' ++ Assign (ExprCall (CObject o) args kws rloc) target iloc :: rest.2) ∧
      loc_writes constants (pre ++ i :: post) = before ++ (o, rloc) :: after) ∧
  (∀ result, call_func func args' kws' = Return result →
      truthy result = Return true →
      is_object result = false →
      expand_macros_in_block constants (pre ++ i :: post) =
      (Raise (mkExc AttributeError
                ("'" +:+ result_type_name result +:+
                 "' object has no attribute 'loc'")),
       pre' ++ i :: post) ∧
      loc_writes constants (pre ++ i :: post) = before) ∧
  (∀ o e, call_func func args' kws' = Return (RObject o) →
      object_truth o = Raise e ∨
      (object_truth o = Return true ∧ setattr_loc o rloc = Raise e) →
      expand_macros_in_block constants (pre ++ i :: post) =
      (Raise e, pre' ++ i :: post) ∧
      loc_writes constants (pre ++ i :: post) = before).
Proof.
  intros Hpre Hmacro Hargs Hkws i rest before after. subst i rest before after.
  rewrite (expand_block_reach _ _ _ _ _ Hpre), (loc_writes_reach _ _ _ _ _ Hpre).
  rewrite (expand_inst_call _ _ _ _ _ _ _ _ _ _ _ _ Hmacro Hargs Hkws).
  split_and!.
  - by intros e ->.
  - intros result -> ->. done.
  - intros o -> Htruth Hset. simpl. rewrite Htruth. simpl. by rewrite Hset.
  - intros result -> -> Hobj. by destruct result.
  - intros o e -> [Htruth|[Htruth Hset]]; simpl; rewrite Htruth; simpl;
      [done|by rewrite Hset].
Qed.

End Expansion.

Lemma expand_call_of_macro_witness :
  let call f args t :=
    Assign (ExprCall (CVar (example_var f)) args [] example_loc)
           (example_var t) example_loc in
  (expand_macros_in_block (H := example_runtime) example_pool
     ([] ++ call "shared" [example_var "n"] "buf" :: []) =
   (Raise (mkExc MacroError
             "Macro expansion failed at kernel.py:
shape must be constant"),
    [] ++ call "shared" [example_var "n"] "buf" :: [])) ∧
  (expand_macros_in_block (H := example_runtime) example_pool
     ([] ++ call "skip" [example_var "n"] "r" :: []) =
   (Return (), [] ++ call "skip" [example_var "n"] "r" :: [])) ∧
  (expand_macros_in_block (H := example_runtime) example_pool
     ([] ++ call "sync" [] "r" :: []) =
   (Return (),
    [] ++ Assign (ExprCall (CObject 7) [] [] example_loc)
                 (example_var "r") example_loc :: []) ∧
   loc_writes (H := example_runtime) example_pool ([] ++ call "sync" [] "r" :: []) =
   [] ++ (7, example_loc) :: []) ∧
  (expand_macros_in_block (H := example_runtime) example_pool
     ([] ++ call "flag" [] "r" :: []) =
   (Raise (mkExc AttributeError "'bool' object has no attribute 'loc'"),
    [] ++ call "flag" [] "r" :: [])).
Proof.
  intros call. split; [|split; [|split]].
  - refine (proj1 (proj1 (expand_call_of_macro (H := example_runtime) example_pool [] [] []
                     (CVar (example_var "shared")) [example_var "n"] []
                     example_loc (example_var "buf") example_loc
                     "shared.array" 3 (PyList [PyStr "shape"]) [PyInt 4] ∅
                     eq_refl _ _ _)
                  (mkExc (OtherError "ValueError") "shape must be constant") eq_refl));
      vm_compute; reflexivity.
  - refine (proj1 (proj1 (proj2 (expand_call_of_macro (H := example_runtime)
                     example_pool [] [] []
                     (CVar (example_var "skip")) [example_var "n"] []
                     example_loc (example_var "r") example_loc
                     "skip" 4 (PyList []) [PyInt 4] ∅
                     eq_refl _ _ _))
                  RNone eq_refl eq_refl));
      vm_compute; reflexivity.
  - refine (proj1 (proj2 (proj2 (expand_call_of_macro (H := example_runtime)
                     example_pool [] [] []
                     (CVar (example_var "sync")) [] []
                     example_loc (example_var "r") example_loc
                     "syncthreads" 2 (PyList []) [] ∅
                     eq_refl _ _ _)))
              7 eq_refl eq_refl eq_refl);
      vm_compute; reflexivity.
  - refine (proj1 (proj1 (proj2 (proj2 (proj2 (expand_call_of_macro (H := example_runtime)
                     example_pool [] [] []
                     (CVar (example_var "flag")) [] []
                     example_loc (example_var "r") example_loc
                     "flag" 5 (PyList []) [] ∅
                     eq_refl _ _ _))))
                  (RBool true) eq_refl eq_refl eq_refl));
      vm_compute; reflexivity.
Defined.

(** C8, as the specification has it, fails for a macro whose function
    returns [True]: the result is truthy, the assignment of [loc] raises
    [AttributeError] outside the [try], and the instruction is not
    replaced. *)
Lemma expand_call_of_truthy_value_raises :
  let i := Assign (ExprCall (CVar (example_var "flag")) [] [] example_loc)
                  (example_var "r") example_loc in
  expand_macros_in_block (H := example_runtime) example_pool [i] =
  (Raise (mkExc AttributeError "'bool' object has no attribute 'loc'"), [i]) ∧
  ¬ truthy_result_replaces (H := example_runtime) example_pool i.
Proof.
  split; [vm_compute; reflexivity|].
  intros Hreplaces.
  destruct (Hreplaces (CVar (example_var "flag")) [] [] example_loc
              (example_var "r") example_loc "flag" 5 (PyList []) [] ∅ (RBool true)
              eq_refl eq_refl eq_refl eq_refl eq_refl eq_refl)
    as (func' & Hobject & Hbody).
  vm_compute in Hbody. injection Hbody as <-. discriminate Hobject.
Qed.

Lemma expand_getattr_of_macro_witness :
  expand_macros_in_block (H := example_runtime) example_pool
    ([] ++ Assign (ExprGetattr (example_var "cuda") "threadIdx" example_loc)
                  (example_var "tid") example_loc :: []) =
  (Return (),
   [] ++ Assign (ExprCall (CIntrinsic (mkIntrinsic "threadIdx" (PyFunction 1) [] None))
                          [] [] example_loc) (example_var "tid") example_loc :: []).
Proof.
  refine (proj1 (expand_getattr_of_macro (H := example_runtime) example_pool [] [] []
                   (example_var "cuda") "threadIdx" example_loc (example_var "tid")
                   example_loc _ _ eq_refl _ _) _ _ _ eq_refl).
  - vm_compute. reflexivity.
  - reflexivity.
Defined.

(** One object returned for two calls: both instructions hold the same
    object, and its [loc] is the one written last. *)
Example expand_call_same_object_twice :
  let l1 := mkLoc "kernel.py" 3 in
  let l2 := mkLoc "kernel.py" 8 in
  let call l t :=
    Assign (ExprCall (CVar (example_var "sync")) [] [] l) (example_var t) example_loc in
  let replaced l t :=
    Assign (ExprCall (CObject 7) [] [] l) (example_var t) example_loc in
  let body := [call l1 "a"; call l2 "b"] in
  expand_macros_in_block (H := example_runtime) example_pool body =
  (Return (), [replaced l1 "a"; replaced l2 "b"]) ∧
  loc_writes (H := example_runtime) example_pool body = [(7, l1); (7, l2)] ∧
  loc_after (loc_writes (H := example_runtime) example_pool body) 7 = Some l2.
Proof. vm_compute. done. Qed.

Example expand_call_falsy :
  let i := Assign (ExprCall (CVar (example_var "skip")) [example_var "n"] [] example_loc)
                  (example_var "r") example_loc in
  expand_macros_in_block (H := example_runtime) example_pool [i] = (Return (), [i]).
Proof. vm_compute. reflexivity. Qed.

Example expand_call_unbound_argument :
  let i := Assign (ExprCall (CVar (example_var "sync")) [example_var "missing"] []
                            example_loc) (example_var "r") example_loc in
  expand_macros_in_block (H := example_runtime) example_pool [i] =
  (Raise (mkExc KeyError "'missing'"), [i]).
Proof. vm_compute. reflexivity. Qed.

Section FoldingPool.
Context `{Runtime}.

Lemma folding_cons constants i body :
  module_getattr_folding constants (i :: body) =
  match fold_inst constants i with
  | (Return _, constants') => module_getattr_folding constants' body
  | (Raise e, constants') => (Raise e, constants')
  end.
Proof. done. Qed.

Lemma folding_keeps_keys constants body k :
  is_Some (constants !! k) → is_Some (pool_after constants body !! k).
Proof.
  unfold pool_after. revert constants.
  induction body as [|i body IH]; intros constants Hk; [done|].
  rewrite folding_cons.
  destruct (fold_inst_cases constants i) as [->|[[e ->]|(r&t&l&x&_&_&->)]];
    [by apply IH|done|].
  apply IH. destruct (decide (var_name t = k)) as [->|Hne].
  - rewrite lookup_insert_eq. by eexists.
  - by rewrite lookup_insert_ne.
Qed.

Lemma folding_new_keys constants body k :
  constants !! k = None →
  is_Some (pool_after constants body !! k) →
  ∃ pre r target loc post,
    body = pre ++ Assign r target loc :: post ∧
    var_name target = k ∧
    binding_rhs (pool_after constants pre) r = true.
Proof.
  unfold pool_after. revert constants.
  induction body as [|i body IH]; intros constants Hk Hk'.
  { simpl in Hk'. rewrite Hk in Hk'. by destruct Hk'. }
  rewrite folding_cons in Hk'.
  destruct (fold_inst_cases constants i) as [E|[[e E]|(r&t&l&x&->&Hb&E)]].
  - rewrite E in Hk'.
    destruct (IH _ Hk Hk') as (pre&r&t&l&post&->&Ht&Hb).
    exists (i :: pre), r, t, l, post. split_and!; [done..|].
    by rewrite folding_cons, E.
  - rewrite E in Hk'. simpl in Hk'. rewrite Hk in Hk'. by destruct Hk'.
  - rewrite E in Hk'.
    destruct (decide (var_name t = k)) as [Ht|Hne].
    + by exists [], r, t, l, body.
    + assert (<[var_name t := x]> constants !! k = None) as Hk''
        by by rewrite lookup_insert_ne.
      destruct (IH _ Hk'' Hk') as (pre&r'&t'&l'&post&->&Ht&Hb').
      exists (Assign r t l :: pre), r', t', l', post. split_and!; [done..|].
      by rewrite folding_cons, E.
Qed.

(** C10. [module_getattr_folding] never removes a key from the pool: a
    key bound before the call is bound afterwards, also when the call
    raises. A key that is new afterwards is the target of an assignment of
    the block whose right-hand side is a [Global], a [Const], a
    [FreeVar], a [Var] bound in the pool or a getattr whose base name is
    bound in the pool, the pool being the one the loop has built when it
    reaches the assignment. Every other instruction leaves the pool as it
    finds it. *)
Theorem module_getattr_folding_pool_grows (constants : pool) (body : list inst) :
  (∀ k, is_Some (constants !! k) → is_Some (pool_after constants body !! k)) ∧
  (∀ k, constants !! k = None → is_Some (pool_after constants body !! k) →
     ∃ pre r target loc post,
       body = pre ++ Assign r target loc :: post ∧
       var_name target = k ∧
       binding_rhs (pool_after constants pre) r = true) ∧
  (∀ c i, binding_inst c i = false → fold_inst c i = (Return (), c)).
Proof.
  split_and!.
  - intros k. apply folding_keeps_keys.
  - intros k. apply folding_new_keys.
  - apply fold_inst_other.
Qed.

End FoldingPool.

Lemma module_getattr_folding_pool_grows_witness :
  is_Some (pool_after (H := example_runtime) example_pool example_block !! "n") ∧
  (∃ pre r target loc post,
      example_block = pre ++ Assign r target loc :: post ∧
      var_name target = "c" ∧
      binding_rhs (pool_after (H := example_runtime) example_pool pre) r = true).
Proof.
  split.
  - exact (proj1 (module_getattr_folding_pool_grows (H := example_runtime)
                    example_pool example_block)
             "n" (mk_is_Some _ _ eq_refl)).
  - exact (proj1 (proj2 (module_getattr_folding_pool_grows (H := example_runtime)
                           example_pool example_block))
             "c" eq_refl (mk_is_Some _ _ eq_refl)).
Defined.

Example module_getattr_folding_example :
  (pool_after (H := example_runtime) example_pool example_block !! "c",
   pool_after (H := example_runtime) example_pool example_block !! "r") =
  (Some (PyObject [("warpsize", PyInt 32)]), None).
Proof. vm_compute. reflexivity. Qed.

(** *** Further properties of the macro passes *)

Section MoreExpansion.
Context `{Runtime}.

Lemma rewritten_refl i : rewritten i i.
Proof. by left. Qed.

Lemma rewritten_all body : Forall2 rewritten body body.
Proof.
  apply Forall2_same_length_lookup_2; [done|].
  intros k x y Hx Hy. rewrite Hx in Hy. injection Hy as <-. apply rewritten_refl.
Qed.

Lemma expand_inst_rewritten constants i i' w :
  expand_inst constants i = Return (i', w) → rewritten i i'.
Proof.
  destruct i as [r target loc|loc]; [|intros [= <- <-]; by left].
  destruct r; try (intros [= <- <-]; by left); simpl.
  - destruct (constants !! callee_name func) as [[]|]; try (intros [= <- <-]; by left).
    destruct callable; [|done].
    destruct (positional_args constants args) as [args'|]; [|done]. simpl.
    destruct (keyword_args constants kws) as [kws'|]; [|done]. simpl.
    destruct (call_func _ _ _) as [result|]; [|done].
    destruct (truthy result) as [[]|]; simpl; [|intros [= <- <-]; by left|done].
    destruct result as [o| | | | |]; try done.
    destruct (setattr_loc o loc0) as [[]|]; simpl; [|done].
    intros [= <- <-]. right. by eexists _, _, _, (CObject o), _, _, _.
  - destruct (constants !! var_name value) as [base|]; [|intros [= <- <-]; by left].
    destruct base; try (intros [= <- <-]; by left);
      (destruct (getattr _ attr) as [v|]; [|done]); simpl;
      destruct v as [| | | | | | |? ? []]; intros [= <- <-];
      try (by left); right; by eexists _, _, _, (CIntrinsic _), _, _, _.
Qed.

Lemma expand_block_rewritten constants body :
  Forall2 rewritten body (expand_macros_in_block constants body).2.
Proof.
  induction body as [|i body IH]; [by constructor|].
  rewrite expand_macros_in_block_cons.
  destruct (expand_inst constants i) as [[i' w]|e] eqn:E.
  - constructor; [by eapply expand_inst_rewritten|done].
  - apply rewritten_all.
Qed.

(** X1. Whatever its outcome, [expand_macros_in_block] leaves a body with
    as many instructions as before, and each instruction is either the one
    that was there or the same assignment (same target, same location)
    with a call of a function object (an [Intrinsic] or the object that a
    macro's function returned) as its right-hand side. *)
Theorem expand_macros_in_block_shape (constants : pool) (body : list inst) :
  length (expand_macros_in_block constants body).2 = length body ∧
  Forall2 rewritten body (expand_macros_in_block constants body).2.
Proof.
  pose proof (expand_block_rewritten constants body) as Hall.
  split; [|done]. symmetry. by eapply Forall2_length.
Qed.

Lemma expand_blocks_cons constants blk blocks :
  (expand_blocks constants (blk :: blocks)).1 =
  match module_getattr_folding constants blk with
  | (Raise e, _) => (Raise e, blk :: blocks)
  | (Return _, constants') =>
      match expand_macros_in_block constants' blk with
      | (Raise e, blk') => (Raise e, blk' :: blocks)
      | (Return _, blk') =>
          ((expand_blocks constants' blocks).1.1,
           blk' :: (expand_blocks constants' blocks).1.2)
      end
  end.
Proof.
  unfold expand_macros_in_block. simpl.
  destruct (module_getattr_folding constants blk) as [[[]|e] constants']; [|done].
  destruct (run_expand_macros_in_block constants' blk) as [[[[]|e] blk'] ws]; [|done].
  by destruct (expand_blocks constants' blocks) as [[r blocks'] ws'].
Qed.

Lemma expand_blocks_rewritten constants blocks :
  Forall2 (Forall2 rewritten) blocks (expand_blocks constants blocks).1.2.
Proof.
  assert (∀ bs : list (list inst), Forall2 (Forall2 rewritten) bs bs) as Hrefl.
  { intros bs. apply Forall2_same_length_lookup_2; [done|].
    intros k x y Hx Hy. rewrite Hx in Hy. injection Hy as <-. apply rewritten_all. }
  revert constants. induction blocks as [|blk blocks IH]; intros constants.
  { by constructor. }
  rewrite expand_blocks_cons.
  destruct (module_getattr_folding constants blk) as [[[]|e] constants'].
  - pose proof (expand_block_rewritten constants' blk) as Hblk.
    destruct (expand_macros_in_block constants' blk) as [[[]|e] blk']; simpl in *.
    + constructor; [done|apply IH].
    + by constructor.
  - simpl. apply Hrefl.
Qed.

(** X2. Whatever its outcome, [expand_macros] leaves as many blocks as
    before, each with as many instructions as before, and each instruction
    is either the one that was there or the same assignment with a call of
    a function object (an [Intrinsic] or the object that a macro's
    function returned) as its right-hand side. *)
Theorem expand_macros_shape (blocks : list (list inst)) :
  length (expand_macros blocks).2 = length blocks ∧
  Forall2 (λ blk blk', length blk' = length blk ∧ Forall2 rewritten blk blk')
          blocks (expand_macros blocks).2.
Proof.
  pose proof (expand_blocks_rewritten ∅ blocks) as Hall.
  split; [symmetry; by eapply Forall2_length|].
  eapply Forall2_impl; [exact Hall|].
  intros blk blk' Hblk. split; [|done]. symmetry. by eapply Forall2_length.
Qed.

(** X3. When the loop of [expand_macros_in_block] reaches a call whose
    callee name is bound in the pool to a Macro that is not callable, the
    pass raises [AssertionError]; the call and the instructions after it
    are left as they are. *)
Theorem expand_call_of_noncallable_macro
    (constants : pool) (pre pre' post : list inst)
    (callee : callee) (args : list Var) (kws : list (string * Var))
    (rloc : Loc) (target : Var) (iloc : Loc)
    (name : string) (func : fid) (argnames : pyval) :
  expand_macros_in_block constants pre = (Return (), pre') →
  constants !! callee_name callee = Some (PyMacro name func false argnames) →
  let i := Assign (ExprCall callee args kws rloc) target iloc in
  ∃ e, exc_cls e = AssertionError ∧
       expand_macros_in_block constants (pre ++ i :: post) =
       (Raise e, pre' ++ i :: post).
Proof.
  intros Hpre Hmacro i. subst i.
  rewrite (expand_block_reach _ _ _ _ _ Hpre). simpl. rewrite Hmacro.
  eexists; split; [|reflexivity]; reflexivity.
Qed.

Lemma comprehension_first_failure {A B} (f : A → outcome B) ok x rest e :
  Forall (λ y, ∃ b, f y = Return b) ok →
  f x = Raise e →
  comprehension f (ok ++ x :: rest) = Raise e.
Proof.
  intros Hok Hx. induction Hok as [|y ok [b Hy] Hok IH]; simpl.
  - by rewrite Hx.
  - rewrite Hy. simpl. by rewrite IH.
Qed.

(** X4. When the loop of [expand_macros_in_block] reaches a call of a
    callable Macro and one of the positional argument names is not bound in
    the pool, the pass raises [KeyError] for the first such name: the
    macro's function is not called, the error is not turned into a
    [MacroError], and the call and the instructions after it are left as
    they are. *)
Theorem expand_call_with_unbound_argument
    (constants : pool) (pre pre' post : list inst)
    (callee : callee) (bound : list Var) (v : Var) (rest : list Var)
    (kws : list (string * Var))
    (rloc : Loc) (target : Var) (iloc : Loc)
    (name : string) (func : fid) (argnames : pyval) :
  expand_macros_in_block constants pre = (Return (), pre') →
  constants !! callee_name callee = Some (PyMacro name func true argnames) →
  Forall (λ a, is_Some (constants !! var_name a)) bound →
  constants !! var_name v = None →
  let i := Assign (ExprCall callee (bound ++ v :: rest) kws rloc) target iloc in
  expand_macros_in_block constants (pre ++ i :: post) =
  (Raise (mkExc KeyError (repr_str (var_name v))), pre' ++ i :: post).
Proof.
  intros Hpre Hmacro Hbound Hv i. subst i.
  rewrite (expand_block_reach _ _ _ _ _ Hpre). simpl. rewrite Hmacro.
  unfold positional_args.
  rewrite (comprehension_first_failure _ bound v rest
             (mkExc KeyError (repr_str (var_name v)))); [done| |].
  - eapply Forall_impl; [exact Hbound|]. intros a [x Hx].
    exists x. unfold subscript. by rewrite Hx.
  - unfold subscript. by rewrite Hv.
Qed.

Lemma expand_inst_inert constants i :
  inert constants i = true → expand_inst constants i = Return (i, []).
Proof.
  destruct i as [r target loc|loc]; [|done].
  destruct r; try done; simpl.
  - unfold macro_bound.
    destruct (constants !! callee_name func) as [[]|]; done.
  - destruct (constants !! var_name value) as [[]|]; done.
Qed.

(** X5. A block in which every instruction is inert for the pool (no call
    whose callee name is bound to a Macro, no getattr whose base name is
    bound to something other than [None]) is returned unchanged, and the
    pass returns. With an empty pool this is every block. *)
Theorem expand_macros_in_block_inert (constants : pool) (body : list inst) :
  Forall (λ i, inert constants i = true) body →
  expand_macros_in_block constants body = (Return (), body).
Proof.
  induction 1 as [|i body Hi Hbody IH]; [done|].
  by rewrite expand_macros_in_block_cons, (expand_inst_inert _ _ Hi), IH.
Qed.

End MoreExpansion.

Lemma expand_call_of_noncallable_macro_witness :
  let i := Assign (ExprCall (CVar (example_var "tid")) [] [] example_loc)
                  (example_var "r") example_loc in
  ∃ e, exc_cls e = AssertionError ∧
       expand_macros_in_block (H := example_runtime)
         (<["tid" := PyMacro "threadIdx" 1 false PyNone]> ∅) ([] ++ i :: []) =
       (Raise e, [] ++ i :: []).
Proof.
  exact (expand_call_of_noncallable_macro (H := example_runtime)
           (<["tid" := PyMacro "threadIdx" 1 false PyNone]> ∅) [] [] []
           (CVar (example_var "tid")) [] [] example_loc (example_var "r") example_loc
           "threadIdx" 1 PyNone eq_refl eq_refl).
Defined.

Lemma expand_call_with_unbound_argument_witness :
  let i := Assign (ExprCall (CVar (example_var "sync"))
                            ([example_var "n"] ++ example_var "missing" :: [])
                            [] example_loc) (example_var "r") example_loc in
  expand_macros_in_block (H := example_runtime) example_pool ([] ++ i :: []) =
  (Raise (mkExc KeyError (repr_str "missing")), [] ++ i :: []).
Proof.
  refine (expand_call_with_unbound_argument (H := example_runtime) example_pool [] [] []
            (CVar (example_var "sync")) [example_var "n"] (example_var "missing") []
            [] example_loc (example_var "r") example_loc
            "syncthreads" 2 (PyList []) eq_refl eq_refl _ eq_refl).
  constructor; [|constructor]. by eexists.
Defined.

Lemma expand_macros_in_block_inert_witness :
  expand_macros_in_block (H := example_runtime) example_pool example_block =
  (Return (), example_block).
Proof.
  refine (expand_macros_in_block_inert (H := example_runtime) example_pool example_block _).
  repeat constructor.
Defined.

Section FoldingFrame.
Context `{Runtime}.



Lemma fold_inst_frame constants i k :
  k ∉ assigned [i] → (fold_inst constants i).2 !! k = constants !! k.
Proof.
  intros Hk.
  destruct (fold_inst_cases constants i) as [->|[[e ->]|(r&t&l&x&->&_&->)]];
    [done..|].
  simpl. apply lookup_insert_ne. intros <-. apply Hk. simpl. by left.
Qed.

(** X8. Folding a block changes the binding of no name other than the
    targets of the block's assignments: for any other name the pool holds
    afterwards what it held before, whether the pass returns or raises. *)
Theorem module_getattr_folding_frame
    (constants : pool) (body : list inst) (k : string) :
  k ∉ assigned body →
  pool_after constants body !! k = constants !! k.
Proof.
  unfold pool_after. revert constants.
  induction body as [|i body IH]; intros constants Hk; [done|].
  assert ((k ∉ assigned [i]) ∧ (k ∉ assigned body)) as [Hi Hbody].
  { change (i :: body) with ([i] ++ body) in Hk.
    unfold assigned in *. rewrite omap_app in Hk.
    split; intros ?; apply Hk, elem_of_app; auto. }
  rewrite folding_cons.
  pose proof (fold_inst_frame constants i k Hi) as Hframe.
  destruct (fold_inst constants i) as [[[]|e] constants']; simpl in *.
  - by rewrite IH.
  - done.
Qed.

End FoldingFrame.


(** An attribute that every integer has is found: the target is bound and
    the folding goes on. *)
Example module_getattr_folding_builtin_attribute :
  module_getattr_folding (H := example_runtime) ∅
    [Assign (Const (PyInt 4) example_loc) (example_var "n") example_loc;
     Assign (ExprGetattr (example_var "n") "real" example_loc)
            (example_var "x") example_loc] =
  (Return (), <["x" := PyInt 4]> (<["n" := PyInt 4]> ∅)).
Proof. reflexivity. Qed.

Lemma module_getattr_folding_frame_witness :
  pool_after (H := example_runtime) example_pool example_block !! "n" =
  example_pool !! "n".
Proof.
  refine (module_getattr_folding_frame (H := example_runtime)
            example_pool example_block "n" _).
  change (assigned example_block) with ["m"; "c"; "r"].
  rewrite !not_elem_of_cons. split_and!; [done..|]. apply not_elem_of_nil.
Defined.

Section Driver.
Context `{Runtime}.

Lemma expand_blocks_writes_cons constants blk blocks :
  (expand_blocks constants (blk :: blocks)).2 =
  match module_getattr_folding constants blk with
  | (Raise e, _) => []
  | (Return _, constants') =>
      match expand_macros_in_block constants' blk with
      | (Raise e, _) => loc_writes constants' blk
      | (Return _, _) =>
          loc_writes constants' blk ++ (expand_blocks constants' blocks).2
      end
  end.
Proof.
  unfold expand_macros_in_block, loc_writes. simpl.
  destruct (module_getattr_folding constants blk) as [[[]|e] constants']; [|done].
  destruct (run_expand_macros_in_block constants' blk) as [[[[]|e] blk'] ws]; [|done].
  by destruct (expand_blocks constants' blocks) as [[r blocks'] ws'].
Qed.

(** X9. [expand_macros] folds a block before it expands it. For a block
    that binds a module with a [Global], reads a callable Macro from it
    with a getattr into another name and calls that name, the call is
    expanded: the first two instructions stay as they are and the callee of
    the third becomes the object that the macro's function returned, into
    which the location of the call is written; nothing else is written. *)
Theorem expand_macros_module_macro_call
    (g : string) (base : pyval) (attr name : string) (func : fid) (argnames : pyval)
    (m f r : Var) (l1 l2 l3 l4 l5 l6 : Loc)
    (args : list Var) (kws : list (string * Var))
    (args' : list pyval) (kws' : gmap string pyval) (o : oid) :
  getattr base attr = Return (PyMacro name func true argnames) →
  var_name f ≠ var_name m →
  let constants :=
    <[var_name f := PyMacro name func true argnames]> (<[var_name m := base]> ∅) in
  positional_args constants args = Return args' →
  keyword_args constants kws = Return kws' →
  call_func func args' kws' = Return (RObject o) →
  object_truth o = Return true →
  setattr_loc o l5 = Return () →
  let blocks :=
    [[Assign (Global g base l1) m l2;
      Assign (ExprGetattr m attr l3) f l4;
      Assign (ExprCall (CVar f) args kws l5) r l6]] in
  expand_macros blocks =
  (Return (),
   [[Assign (Global g base l1) m l2;
     Assign (ExprGetattr m attr l3) f l4;
     Assign (ExprCall (CObject o) args kws l5) r l6]]) ∧
  expand_macros_loc_writes blocks = [(o, l5)].
Proof.
  intros Hget Hne constants Hargs Hkws Hcall Htruth Hset blocks. subst blocks.
  unfold expand_macros, expand_macros_loc_writes.
  rewrite expand_blocks_cons, expand_blocks_writes_cons.
  assert (module_getattr_folding ∅
            [Assign (Global g base l1) m l2;
             Assign (ExprGetattr m attr l3) f l4;
             Assign (ExprCall (CVar f) args kws l5) r l6] =
          (Return (), constants)) as ->.
  { cbn [module_getattr_folding fold_inst].
    rewrite lookup_insert_eq, Hget. done. }
  assert (constants !! var_name m = Some base) as Hm.
  { subst constants. rewrite lookup_insert_ne by done. apply lookup_insert_eq. }
  assert (constants !! var_name f = Some (PyMacro name func true argnames)) as Hf.
  { subst constants. apply lookup_insert_eq. }
  assert (run_expand_macros_in_block constants
            [Assign (Global g base l1) m l2;
             Assign (ExprGetattr m attr l3) f l4;
             Assign (ExprCall (CVar f) args kws l5) r l6] =
          (Return (),
           [Assign (Global g base l1) m l2;
            Assign (ExprGetattr m attr l3) f l4;
            Assign (ExprCall (CObject o) args kws l5) r l6],
           [(o, l5)])) as Hrun.
  { cbn [run_expand_macros_in_block].
    rewrite (expand_inst_getattr _ _ _ _ _ _ _ _ Hm Hget).
    rewrite (expand_inst_call constants (CVar f) _ _ _ _ _ _ _ _ _ _ Hf Hargs Hkws), Hcall.
    cbn [truthy]. rewrite Htruth. cbn [mbind outcome_bind]. rewrite Hset.
    reflexivity. }
  unfold expand_macros_in_block, loc_writes. rewrite Hrun. done.
Qed.

(** X10. The pool of [expand_macros] lasts from block to block. When an
    earlier block binds a module with a [Global] and a later block reads a
    Macro that is not callable from it with a getattr, the getattr of the
    later block becomes a call of an [Intrinsic] built from the macro. *)
Theorem expand_macros_across_blocks
    (g : string) (base : pyval) (attr name : string) (func : fid) (argnames : pyval)
    (m t : Var) (l1 l2 l3 l4 : Loc) :
  getattr base attr = Return (PyMacro name func false argnames) →
  var_name t ≠ var_name m →
  expand_macros
    [[Assign (Global g base l1) m l2]; [Assign (ExprGetattr m attr l3) t l4]] =
  (Return (),
   [[Assign (Global g base l1) m l2];
    [Assign (ExprCall (CIntrinsic (mkIntrinsic name (PyFunction func) [] None))
                      [] [] l3) t l4]]).
Proof.
  intros Hget Hne.
  unfold expand_macros. rewrite expand_blocks_cons.
  cbn [module_getattr_folding fold_inst].
  rewrite expand_macros_in_block_cons.
  cbn [expand_inst].
  change (expand_macros_in_block (<[var_name m:=base]> ∅) []) with
    (Return (), @nil inst).
  cbn [fst snd].
  rewrite expand_blocks_cons.
  cbn [module_getattr_folding fold_inst].
  rewrite lookup_insert_eq, Hget.
  rewrite expand_macros_in_block_cons.
  rewrite (expand_inst_getattr _ _ _ _ _ _ base _
             ltac:(by rewrite lookup_insert_ne, lookup_insert_eq) Hget).
  done.
Qed.

End Driver.

Lemma expand_macros_module_macro_call_witness :
  let cuda := PyObject [("syncthreads", PyMacro "syncthreads" 2 true (PyList []))] in
  let blocks :=
    [[Assign (Global "cuda" cuda example_loc) (example_var "m") example_loc;
      Assign (ExprGetattr (example_var "m") "syncthreads" example_loc)
             (example_var "f") example_loc;
      Assign (ExprCall (CVar (example_var "f")) [] [] example_loc)
             (example_var "r") example_loc]] in
  expand_macros (H := example_runtime) blocks =
  (Return (),
   [[Assign (Global "cuda" cuda example_loc) (example_var "m") example_loc;
     Assign (ExprGetattr (example_var "m") "syncthreads" example_loc)
            (example_var "f") example_loc;
     Assign (ExprCall (CObject 7) [] [] example_loc) (example_var "r") example_loc]]) ∧
  expand_macros_loc_writes (H := example_runtime) blocks = [(7, example_loc)].
Proof.
  refine (expand_macros_module_macro_call (H := example_runtime)
            "cuda" (PyObject [("syncthreads", PyMacro "syncthreads" 2 true (PyList []))])
            "syncthreads" "syncthreads" 2 (PyList [])
            (example_var "m") (example_var "f") (example_var "r")
            example_loc example_loc example_loc example_loc example_loc example_loc
            [] [] [] ∅ 7
            eq_refl _ _ _ eq_refl eq_refl eq_refl).
  - discriminate.
  - reflexivity.
  - vm_compute. reflexivity.
Defined.

Lemma expand_macros_across_blocks_witness :
  let cuda := PyObject [("threadIdx", PyMacro "threadIdx" 1 false PyNone)] in
  expand_macros (H := example_runtime)
    [[Assign (Global "cuda" cuda example_loc) (example_var "m") example_loc];
     [Assign (ExprGetattr (example_var "m") "threadIdx" example_loc)
             (example_var "t") example_loc]] =
  (Return (),
   [[Assign (Global "cuda" cuda example_loc) (example_var "m") example_loc];
    [Assign (ExprCall (CIntrinsic (mkIntrinsic "threadIdx" (PyFunction 1) [] None))
                      [] [] example_loc) (example_var "t") example_loc]]).
Proof.
  refine (expand_macros_across_blocks (H := example_runtime)
            "cuda" (PyObject [("threadIdx", PyMacro "threadIdx" 1 false PyNone)])
            "threadIdx" "threadIdx" 1 PyNone
            (example_var "m") (example_var "t")
            example_loc example_loc example_loc example_loc eq_refl _).
  discriminate.
Defined.

End MacroSpec.


(** ** Properties of the extension-class compiler *)

Module CompileClassSpec.
Import CompileClass.
Local Open Scope list_scope.

(** Closes a goal [∃ e, exc_cls e = c ∧ m = Raise e] when [m] computes. *)
Ltac raises := eexists; split; [|reflexivity]; reflexivity.

(** *** Attribute inheritance *)

Lemma comprehension_raises {A B} (f : A → outcome B) (P : exception → Prop) l e :
  (∀ x e', f x = Raise e' → P e') →
  comprehension f l = Raise e → P e.
Proof.
  intros Hf. induction l as [|x l IH]; simpl; [done|].
  destruct (f x) as [y|e'] eqn:Ef; simpl.
  - destruct (comprehension f l) as [ys|e'']; simpl; [done|].
    intros [= <-]. by apply IH.
  - intros [= <-]. by eapply Hf.
Qed.

Lemma inherit_loop_table_raises step table base bases :
  (∀ o, ∃ e, exc_cls e = AttributeError ∧ step table o = Raise e) →
  ∃ e, exc_cls e = AttributeError ∧
       inherit_loop step table (base :: bases) = Raise e.
Proof.
  intros Hstep. simpl. unfold get_ext_type.
  destruct (cls_ext_type base) as [b|]; simpl.
  - destruct (Hstep (OExtType b)) as (e & He & ->). by exists e.
  - raises.
Qed.

Lemma build_attribute_table_outcome ext_type :
  match numba_bases (py_class ext_type) with
  | [] => build_attribute_table ext_type = Return None
  | _ :: _ =>
      ∃ e, exc_cls e = AttributeError ∧ build_attribute_table ext_type = Raise e
  end.
Proof.
  unfold build_attribute_table.
  destruct (numba_bases (py_class ext_type)) as [|base bases]; [done|].
  destruct (comprehension _ (base :: bases)) as [parents|e] eqn:E.
  - cbn [mbind outcome_bind].
    destruct (inherit_loop_table_raises inherit_attributes
                (OAttributeTable (ExtensionAttributesTableType parents)) base bases)
      as (e & He & ->).
    { intros o. raises. }
    by exists e.
  - exists e. split; [|done].
    eapply (comprehension_raises _ (λ e, exc_cls e = AttributeError)); [|exact E].
    intros x e'. unfold get_exttype.
    destruct (cls_exttype x); simpl; [done|]. by intros [= <-].
Qed.

Lemma build_method_table_outcome ext_type :
  match numba_bases (py_class ext_type) with
  | [] => build_method_table ext_type = Return None
  | _ :: _ =>
      ∃ e, exc_cls e = AttributeError ∧ build_method_table ext_type = Raise e
  end.
Proof.
  unfold build_method_table.
  destruct (numba_bases (py_class ext_type)) as [|base bases]; [done|].
  destruct (comprehension _ (base :: bases)) as [parents|e] eqn:E.
  - cbn [mbind outcome_bind].
    destruct (inherit_loop_table_raises inherit_methods
                (OVTabType (new_VTabType parents)) base bases) as (e & He & ->).
    { intros o. raises. }
    by exists e.
  - exists e. split; [|done].
    eapply (comprehension_raises _ (λ e, exc_cls e = AttributeError)); [|exact E].
    intros x e'. unfold get_exttype.
    destruct (cls_exttype x); simpl; [done|]. by intros [= <-].
Qed.

(** C1. What [inherit] does, for every extension type. When the class has
    no extension-class bases the call returns and leaves [None] in
    [attribute_table] and in [vtab_type]: the tables built by
    [build_attribute_table] and [build_method_table] are not handed
    back. When the class has such bases the call raises [AttributeError]
    and leaves the extension type as it was: the loops pass the new table
    where [inherit_attributes] and [inherit_methods] read an extension
    type. In neither case does the extension type receive a table. *)
Theorem inherit_outcome (ext_type : ExtType) :
  match numba_bases (py_class ext_type) with
  | [] =>
      inherit ext_type =
      (Return (), set_vtab_type (set_attribute_table ext_type None) None)
  | _ :: _ =>
      ∃ e, exc_cls e = AttributeError ∧ inherit ext_type = (Raise e, ext_type)
  end.
Proof.
  unfold inherit.
  pose proof (build_attribute_table_outcome ext_type) as Ha.
  pose proof (build_method_table_outcome (set_attribute_table ext_type None)) as Hm.
  simpl in Hm.
  destruct (numba_bases (py_class ext_type)) as [|base bases].
  - by rewrite Ha, Hm.
  - destruct Ha as (e & He & ->). by exists e.
Qed.

Example inherit_without_bases :
  inherit example_ext_type = (Return (), mkExtType example_class None None).
Proof. reflexivity. Qed.

Example inherit_with_bases :
  (inherit (mkExtType derived_class None None)).1 =
  Raise (mkExc AttributeError "object has no attribute 'attribute_table'").
Proof. reflexivity. Qed.

Lemma dict_update_lookup {V} (d other : gmap string V) name v :
  other !! name = Some v → dict_update d other !! name = Some v.
Proof. intros Hv. unfold dict_update. by apply lookup_union_Some_l. Qed.

Lemma inherit_attributes_ext_type D B tD tB :
  attribute_table D = Some tD → attribute_table B = Some tB →
  inherit_attributes (OExtType D) (OExtType B) =
  Return (OExtType (set_attribute_table D
    (Some (mkAttributeTable (attr_parents tD)
                            (dict_update (attributedict tD) (attributedict tB)))))).
Proof.
  intros HD HB. unfold inherit_attributes, get_attribute_table.
  by rewrite HD, HB.
Qed.

Lemma inherit_methods_ext_type D B vD vB :
  vtab_type D = Some vD → vtab_type B = Some vB →
  inherit_methods (OExtType D) (OExtType B) =
  Return (OExtType (set_vtab_type D
    (Some (mkVTabType (vtab_parents vD)
                      (dict_update (methoddict vD) (methoddict vB)))))).
Proof.
  intros HD HB. unfold inherit_methods, get_vtab_type.
  by rewrite HD, HB.
Qed.

(** C2. For a derived class with the direct bases [[A, B]], whatever the
    two bases declare, [build_attribute_table], [build_method_table] and
    with them [inherit] raise [AttributeError]: the first iteration of the
    loop over the bases hands the new table, not the extension type, to
    [inherit_attributes] (to [inherit_methods]), which reads
    [attribute_table] ([vtab_type]) on it. The extension type is left as
    it was, so no entry of [A] or of [B] reaches it: for every name the
    derived type holds after the call what it held before, and a name
    that both bases declare is mapped to the entry of neither. *)
Theorem inherit_two_bases_raises (ext_type : ExtType) (A B : PyClass) :
  numba_bases (py_class ext_type) = [A; B] →
  (∃ e, exc_cls e = AttributeError ∧ build_attribute_table ext_type = Raise e) ∧
  (∃ e, exc_cls e = AttributeError ∧ build_method_table ext_type = Raise e) ∧
  (∃ e, exc_cls e = AttributeError ∧ inherit ext_type = (Raise e, ext_type)) ∧
  (∀ name,
      attribute_entry (OExtType (inherit ext_type).2) name =
      attribute_entry (OExtType ext_type) name ∧
      method_entry (OExtType (inherit ext_type).2) name =
      method_entry (OExtType ext_type) name).
Proof.
  intros Hbases.
  pose proof (build_attribute_table_outcome ext_type) as Ha.
  pose proof (build_method_table_outcome ext_type) as Hm.
  rewrite Hbases in Ha, Hm.
  assert (∃ e, exc_cls e = AttributeError ∧ inherit ext_type = (Raise e, ext_type))
    as Hinherit.
  { destruct Ha as (e & He & Ha). exists e. split; [done|].
    unfold inherit. by rewrite Ha. }
  split_and!; [done..|].
  intros name. by destruct Hinherit as (e & _ & ->).
Qed.

Lemma inherit_two_bases_raises_witness :
  let D := mkExtType derived_class None None in
  (∃ e, exc_cls e = AttributeError ∧ inherit D = (Raise e, D)) ∧
  attribute_entry (OExtType parent_A) "norm" = Some "int32" ∧
  attribute_entry (OExtType parent_B) "norm" = Some "double" ∧
  attribute_entry (OExtType (inherit D).2) "norm" = None ∧
  method_entry (OExtType parent_B) "norm" = Some double_sig ∧
  method_entry (OExtType (inherit D).2) "norm" = None.
Proof.
  pose proof (inherit_two_bases_raises (mkExtType derived_class None None)
                class_A class_B eq_refl) as (_ & _ & Hraises & Hentries).
  split; [exact Hraises|].
  split; [reflexivity|]. split; [reflexivity|].
  split; [exact (proj1 (Hentries "norm"))|].
  split; [reflexivity|exact (proj2 (Hentries "norm"))].
Defined.

(** [inherit_attributes] itself, called by hand on extension types that
    have tables, updates the dictionary of the derived type: of two bases
    that declare the same name, the one passed later has its entry
    kept. *)
Example last_base_wins_example :
  (D1 ← inherit_attributes (OExtType derived) (OExtType parent_A);
   Da ← inherit_attributes D1 (OExtType parent_B);
   Return (attribute_entry Da "norm", attribute_entry Da "y")) =
  Return (Some "double", Some "double").
Proof. vm_compute. reflexivity. Qed.

(** *** The compiler *)

Lemma extend_log_nil self : extend_log [] self = self.
Proof. destruct self. unfold extend_log. simpl. by rewrite app_nil_r. Qed.

Lemma extend_log_emit evs ev self :
  emit ev (extend_log evs self) = extend_log (evs ++ [ev]) self.
Proof. unfold emit, extend_log. simpl. by rewrite app_assoc. Qed.

Lemma events_of_extend_log {A} (m : M A) self r evs :
  m self = (r, extend_log evs self) → events_of m self = evs.
Proof. intros E. unfold events_of. rewrite E. simpl. apply drop_app_length. Qed.

Lemma string_length_app (a b : string) :
  String.length (a +:+ b) = String.length a + String.length b.
Proof. induction a as [|c a IH]; simpl; [done|]. by rewrite IH. Qed.

Section Compiler.
Context `{Collaborators}.

(** **** Validation *)

Lemma validate_loop_all_accept_from validators self :
  Forall (λ v : Validator, v (ext_type self) = Return ()) validators →
  ∀ i evs,
    validate_loop i validators (extend_log evs self) =
    (Return (),
     extend_log (evs ++ (EValidate <$> List.seq i (length validators))) self).
Proof.
  induction 1 as [|v validators Hv Hall IH]; intros i evs.
  - simpl. by rewrite app_nil_r.
  - cbn [validate_loop and_then]. rewrite extend_log_emit.
    change (ext_type (extend_log _ self)) with (ext_type self). rewrite Hv.
    rewrite IH. simpl. by rewrite <- app_assoc.
Qed.

Lemma validate_loop_all_accept validators i self :
  Forall (λ v : Validator, v (ext_type self) = Return ()) validators →
  validate_loop i validators self =
  (Return (), extend_log (EValidate <$> List.seq i (length validators)) self).
Proof.
  intros Hall.
  pose proof (validate_loop_all_accept_from _ _ Hall i []) as E.
  by rewrite extend_log_nil in E.
Qed.

Lemma validate_loop_first_failure_from pre v post failure self :
  Forall (λ w : Validator, w (ext_type self) = Return ()) pre →
  v (ext_type self) = Raise failure →
  ∀ i evs,
    validate_loop i (pre ++ v :: post) (extend_log evs self) =
    (Raise failure,
     extend_log (evs ++ (EValidate <$> List.seq i (S (length pre)))) self).
Proof.
  intros Hpre Hv.
  induction Hpre as [|w pre Hw Hpre IH]; intros i evs.
  - cbn [app validate_loop and_then]. rewrite extend_log_emit.
    change (ext_type (extend_log _ self)) with (ext_type self). by rewrite Hv.
  - cbn [app validate_loop and_then]. rewrite extend_log_emit.
    change (ext_type (extend_log _ self)) with (ext_type self). rewrite Hw.
    rewrite IH. cbn [length List.seq fmap list_fmap]. by rewrite <- app_assoc.
Qed.

Lemma validate_loop_first_failure pre v post failure i self :
  Forall (λ w : Validator, w (ext_type self) = Return ()) pre →
  v (ext_type self) = Raise failure →
  validate_loop i (pre ++ v :: post) self =
  (Raise failure, extend_log (EValidate <$> List.seq i (S (length pre))) self).
Proof.
  intros Hpre Hv.
  pose proof (validate_loop_first_failure_from _ _ post _ _ Hpre Hv i []) as E.
  by rewrite extend_log_nil in E.
Qed.

(** C3, as the code has it. [validate] calls the registered
    extension-type validators in order. The first validator that
    rejects the type ends the pass: its failure, and only its failure,
    is what the caller receives, and the validators after it are not
    called. When no validator rejects, every validator has been called
    and [validate] returns. *)
Theorem validate_stops_at_first_failure
    (self : ExtensionCompiler) (validators : list Validator) :
  exttype_validators = Some validators →
  (∀ pre v post failure,
      validators = pre ++ v :: post →
      Forall (λ w : Validator, w (ext_type self) = Return ()) pre →
      v (ext_type self) = Raise failure →
      (validate self).1 = Raise failure ∧
      events_of validate self = EValidate <$> List.seq 0 (S (length pre))) ∧
  (Forall (λ w : Validator, w (ext_type self) = Return ()) validators →
      (validate self).1 = Return () ∧
      events_of validate self = EValidate <$> List.seq 0 (length validators)).
Proof.
  intros Hvs. split.
  - intros pre v post failure -> Hpre Hv.
    assert (validate self =
            (Raise failure,
             extend_log (EValidate <$> List.seq 0 (S (length pre))) self)) as E.
    { unfold validate. rewrite Hvs. by apply validate_loop_first_failure. }
    split; [by rewrite E|]. by eapply events_of_extend_log.
  - intros Hall.
    assert (validate self =
            (Return (),
             extend_log (EValidate <$> List.seq 0 (length validators)) self)) as E.
    { unfold validate. rewrite Hvs. by apply validate_loop_all_accept. }
    split; [by rewrite E|]. by eapply events_of_extend_log.
Qed.

(** **** Inference of the methods *)

Lemma type_infer_method_log m self :
  let r := call_type_infer_method [AMember (MMethod m)] self in
  methods r.2 = methods self ∧
  ((r.1 = Return () ∧ log r.2 = log self ++ [EInferBegin m; EInferEnd m]) ∨
   (∃ e, r.1 = Raise e ∧
         (log r.2 = log self ++ [EInferBegin m] ∨
          log r.2 = log self ++ [EInferBegin m; EInferEnd m]))).
Proof.
  cbn [call_type_infer_method type_infer_method].
  destruct (compile2 _ _ _ _ _) as [func_env|e]; cbn.
  - destruct (add_method _ _ _) as [[[]|e] ext] eqn:E; cbn.
    + split; [done|]. left. by rewrite <- app_assoc.
    + split; [done|]. right. exists e. split; [done|]. right.
      by rewrite <- app_assoc.
  - split; [done|]. right. exists e. split; [done|]. by left.
Qed.

Lemma other_methods_cons m ms :
  other_methods (m :: ms) =
  if is_new_or_init (method_name m) then other_methods ms
  else m :: other_methods ms.
Proof.
  unfold other_methods. rewrite filter_cons.
  destruct (is_new_or_init (method_name m)); by case_decide.
Qed.

Lemma inference_events_cons m ms :
  inference_events (m :: ms) =
  if is_new_or_init (method_name m) then inference_events ms
  else EInferBegin m :: EInferEnd m :: inference_events ms.
Proof.
  unfold inference_events. rewrite other_methods_cons.
  by destruct (is_new_or_init (method_name m)).
Qed.

Lemma type_infer_loop_log ms self :
  let r := type_infer_loop ms self in
  methods r.2 = methods self ∧
  ∃ tr, log r.2 = log self ++ tr ∧
        tr `prefix_of` inference_events ms ∧
        (r.1 = Return () → tr = inference_events ms).
Proof.
  revert self. induction ms as [|m ms IH]; intros self.
  { split; [done|]. exists []. cbn. by rewrite app_nil_r. }
  cbn [type_infer_loop]. rewrite inference_events_cons.
  destruct (is_new_or_init (method_name m)); [apply IH|].
  unfold and_then.
  pose proof (type_infer_method_log m self) as [Hms Hlog]. cbn zeta in Hms, Hlog.
  destruct (call_type_infer_method [AMember (MMethod m)] self) as [[[]|e] self'];
    cbn [fst snd] in *.
  - destruct Hlog as [[_ Hlog]|(e & He & _)]; [|done].
    destruct (IH self') as (Hms' & tr & Hlog' & Hpre & Hret).
    split; [congruence|].
    exists (EInferBegin m :: EInferEnd m :: tr). split_and!.
    + rewrite Hlog', Hlog. by rewrite <- app_assoc.
    + by do 2 apply prefix_cons.
    + intros Hr. by rewrite (Hret Hr).
  - split; [done|].
    destruct Hlog as [[? _]|(e' & _ & [Hlog|Hlog])]; [done|..].
    + exists [EInferBegin m]. split_and!; [done| |done].
      apply prefix_cons, prefix_nil.
    + exists [EInferBegin m; EInferEnd m]. split_and!; [done| |done].
      do 2 apply prefix_cons. apply prefix_nil.
Qed.

Lemma events_of_log {A} (m : M A) self tr :
  log (m self).2 = log self ++ tr → events_of m self = tr.
Proof. intros E. unfold events_of. rewrite E. apply drop_app_length. Qed.





(** **** The order of the stages of [infer] *)

Lemma and_then_logs {A B} (m : M A) (k : A → M B) self full1 full2 :
  logs_within m self full1 →
  (∀ a self', m self = (Return a, self') → logs_within (k a) self' full2) →
  logs_within (and_then m k) self (full1 ++ full2).
Proof.
  intros (tr1 & Hlog1 & Hpre1 & Hret1) Hk. unfold logs_within, and_then.
  destruct (m self) as [[a|e] self'] eqn:E; cbn [fst snd] in *.
  - destruct (Hk a self' eq_refl) as (tr2 & Hlog2 & Hpre2 & Hret2).
    rewrite (Hret1 a eq_refl) in Hlog1.
    exists (full1 ++ tr2). split_and!.
    + by rewrite Hlog2, Hlog1, <- app_assoc.
    + by apply prefix_app.
    + intros b Hb. by rewrite (Hret2 b Hb).
  - exists tr1. split_and!; [done| |done].
    by apply prefix_app_r.
Qed.

Lemma on_ext_type_logs ev f self : logs_within (on_ext_type ev f) self [ev].
Proof.
  exists [ev]. unfold on_ext_type.
  destruct (f (ext_type (emit ev self))) as [r e]. by split_and!.
Qed.

Lemma on_ext_type_keeps ev f self :
  methods (on_ext_type ev f self).2 = methods self ∧
  class_dict (on_ext_type ev f self).2 = class_dict self.
Proof.
  unfold on_ext_type. by destruct (f (ext_type (emit ev self))) as [r e].
Qed.

Lemma infer_attributes_logs self :
  logs_within infer_attributes self [EInherit; EClassAttributeTypes].
Proof.
  apply (and_then_logs _ _ _ [EInherit] [EClassAttributeTypes]).
  - apply on_ext_type_logs.
  - intros u self' E. apply on_ext_type_logs.
Qed.

Lemma add_methods_keeps pairs self :
  log (add_methods pairs self).2 = log self ∧
  methods (add_methods pairs self).2 = methods self.
Proof.
  revert self. induction pairs as [|[m mt] pairs IH]; intros self; [done|].
  cbn [add_methods]. unfold and_then. cbn beta.
  destruct (add_method (ext_type self) (method_name m) mt) as [[[]|e] ext];
    cbn [fst snd]; [|done].
  by destruct (IH (set_class_dict (set_ext_type self ext)
         (<[method_name m := MMethod m]> (class_dict (set_ext_type self ext))))).
Qed.

Lemma process_method_signatures_logs self :
  logs_within process_method_signatures self [EMethodSignatures] ∧
  (∀ a, (process_method_signatures self).1 = Return a →
        ∃ ms, methods (process_method_signatures self).2 = Value ms).
Proof.
  unfold logs_within, process_method_signatures.
  destruct (get_method_signatures _ _) as [[ms mts]|e]; cbn [fst snd].
  - destruct (add_methods_keeps (zip ms mts)
                (set_methods (emit EMethodSignatures self) (Value ms) (Value mts)))
      as [Hlog Hms].
    split; [|intros _ _; by exists ms].
    exists [EMethodSignatures]. by split_and!.
  - split; [|done]. exists [EMethodSignatures]. by split_and!.
Qed.

Lemma signatures_logs self :
  logs_within (infer_attributes >> process_method_signatures) self
              [EInherit; EClassAttributeTypes; EMethodSignatures] ∧
  (∀ a, ((infer_attributes >> process_method_signatures) self).1 = Return a →
        ∃ ms, methods (signatures_processed self) = Value ms).
Proof.
  split.
  - apply (and_then_logs _ _ _ [EInherit; EClassAttributeTypes] [EMethodSignatures]).
    + apply infer_attributes_logs.
    + intros u self' E. apply process_method_signatures_logs.
  - unfold signatures_processed, and_then.
    destruct (infer_attributes self) as [[[]|e] self']; [|done].
    apply process_method_signatures_logs.
Qed.

Lemma type_infer_methods_logs self ms :
  methods self = Value ms →
  logs_within type_infer_methods self (inference_events ms).
Proof.
  intros Hms. unfold logs_within.
  assert (type_infer_methods self = type_infer_loop ms self) as ->
    by (unfold type_infer_methods; by rewrite Hms).
  destruct (type_infer_loop_log ms self) as (_ & tr & Hlog & Hpre & Hret).
  exists tr. split_and!; [done..|]. by intros [].
Qed.

Lemma after_init_logs self ms :
  methods self = Value ms →
  logs_within
    (on_ext_type EBuildAttributes build_attributes
     >> type_infer_methods
     >> on_ext_type EBuildVtabType build_vtab_type
     >> (λ self, (Return (), set_methods self IsNone IsNone)))
    self (EBuildAttributes :: inference_events ms ++ [EBuildVtabType]).
Proof.
  intros Hms.
  apply (and_then_logs _ _ _ [EBuildAttributes]); [apply on_ext_type_logs|].
  intros u1 self1 E1.
  assert (methods self1 = Value ms) as Hms1.
  { pose proof (on_ext_type_keeps EBuildAttributes build_attributes self) as [Hk _].
    rewrite E1 in Hk. cbn in Hk. congruence. }
  apply and_then_logs; [by apply type_infer_methods_logs|].
  intros u2 self2 E2.
  replace [EBuildVtabType] with ([EBuildVtabType] ++ []) by done.
  apply and_then_logs; [apply on_ext_type_logs|].
  intros u3 self3 E3. exists []. split_and!; [|done..].
  by rewrite app_nil_r.
Qed.

Lemma infer_split self :
  infer self =
  and_then (infer_attributes >> process_method_signatures)
           (λ _, after_signatures) self.
Proof.
  unfold infer, after_signatures, and_then.
  destruct (infer_attributes self) as [[[]|e] self0]; [|done].
  by destruct (process_method_signatures self0) as [[[]|e] self1].
Qed.

Lemma init_stage_cases self :
  match class_dict self !! "__init__" with
  | None | Some MNone => type_infer_init_method self = (Return (), self)
  | Some _ =>
      ∃ e, exc_cls e = TypeError ∧ type_infer_init_method self = (Raise e, self)
  end.
Proof.
  unfold type_infer_init_method.
  destruct (class_dict self !! "__init__") as [[]|]; try done; raises.
Qed.

Lemma after_signatures_cases self ms :
  methods self = Value ms →
  ((class_dict self !! "__init__" = None ∨
    class_dict self !! "__init__" = Some MNone) ∧
   logs_within after_signatures self
     (EBuildAttributes :: inference_events ms ++ [EBuildVtabType])) ∨
  (∃ e, after_signatures self = (Raise e, self)).
Proof.
  intros Hms. unfold after_signatures.
  pose proof (after_init_logs self ms Hms) as Hrest. revert Hrest.
  generalize (on_ext_type EBuildAttributes build_attributes
              >> type_infer_methods
              >> on_ext_type EBuildVtabType build_vtab_type
              >> (λ self, (Return (), set_methods self IsNone IsNone))).
  intros rest Hrest.
  pose proof (init_stage_cases self) as Hinit.
  assert (∀ k : unit → M unit,
            type_infer_init_method self = (Return (), self) →
            and_then type_infer_init_method k self = k () self) as Hret.
  { intros k E. unfold and_then. by rewrite E. }
  assert (∀ (k : unit → M unit) e,
            type_infer_init_method self = (Raise e, self) →
            and_then type_infer_init_method k self = (Raise e, self)) as Hraise.
  { intros k e E. unfold and_then. by rewrite E. }
  destruct (class_dict self !! "__init__") as [[]|] eqn:E;
    try (destruct Hinit as (e & _ & Hinit); right; exists e; by apply Hraise);
    (left; split; [by auto|]);
    unfold logs_within; by rewrite (Hret _ Hinit).
Qed.

Lemma infer_events self :
  ∃ tr, log (infer self).2 = log self ++ tr ∧
    (tr `prefix_of` [EInherit; EClassAttributeTypes; EMethodSignatures] ∨
     ((class_dict (signatures_processed self) !! "__init__" = None ∨
       class_dict (signatures_processed self) !! "__init__" = Some MNone) ∧
      ∃ ms, methods (signatures_processed self) = Value ms ∧
            tr `prefix_of` schedule ms)).
Proof.
  rewrite infer_split.
  destruct (signatures_logs self) as [(tr1 & Hlog1 & Hpre1 & Hret1) Hms].
  unfold signatures_processed in *. unfold and_then at 1.
  destruct ((infer_attributes >> process_method_signatures) self)
    as [[[]|e] self1]; cbn [fst snd] in *.
  - rewrite (Hret1 () eq_refl) in Hlog1.
    destruct (Hms () eq_refl) as [ms Hms1].
    destruct (after_signatures_cases self1 ms Hms1)
      as [[Hinit (tr2 & Hlog2 & Hpre2 & _)]|[e ->]].
    + exists ([EInherit; EClassAttributeTypes; EMethodSignatures] ++ tr2). split.
      * by rewrite Hlog2, Hlog1, <- app_assoc.
      * right. split; [done|]. exists ms. split; [done|].
        unfold schedule. by apply prefix_app.
    + exists [EInherit; EClassAttributeTypes; EMethodSignatures].
      split; [done|]. by left.
  - exists tr1. split; [done|]. by left.
Qed.

Lemma before_unique (l : list event) x before after :
  l ++ [x] = before ++ x :: after → x ∉ l → before = l.
Proof.
  revert before. induction l as [|y l IH]; intros before E Hx.
  - destruct before as [|b before]; [done|].
    injection E as -> E. by destruct before.
  - destruct before as [|b before].
    + injection E as -> _. exfalso. apply Hx. by left.
    + injection E as -> E. f_equal. apply IH; [done|].
      intros ?. apply Hx. by right.
Qed.

Lemma marker_before (l1 l2 : list event) y x before rest :
  l1 ++ y :: l2 = before ++ x :: rest → x ∉ l1 → x ≠ y → y ∈ before.
Proof.
  revert before. induction l1 as [|a l1 IH]; intros before E Hx Hxy.
  - destruct before as [|b before]; injection E as E1 E2; [done|].
    subst. by left.
  - destruct before as [|b before]; injection E as E1 E2.
    + exfalso. apply Hx. subst. by left.
    + right. apply (IH _ E2); [|done]. intros ?. apply Hx. by right.
Qed.

Lemma inference_events_end m ms :
  m ∈ other_methods ms → EInferEnd m ∈ inference_events ms.
Proof.
  unfold inference_events. generalize (other_methods ms). intros l Hm.
  induction Hm as [m l|m m' l Hm IH]; cbn.
  - right. by left.
  - by do 2 right.
Qed.

Lemma inference_events_only ev ms :
  ev ∈ inference_events ms → ∃ m, ev = EInferBegin m ∨ ev = EInferEnd m.
Proof.
  unfold inference_events. generalize (other_methods ms). intros l.
  induction l as [|m l IH]; cbn.
  - by intros ?%elem_of_nil.
  - rewrite !elem_of_cons. intros [->|[->|Hev]]; [by eauto..|by apply IH].
Qed.

(** With an [__init__] in the class dictionary the init stage raises, and
    [infer] ends before any inference begins. *)
Lemma infer_with_init_infers_nothing self initfunc m :
  class_dict (signatures_processed self) !! "__init__" = Some initfunc →
  initfunc ≠ MNone →
  EInferBegin m ∉ events_of infer self.
Proof.
  intros Hinit Hnot Hin.
  destruct (infer_events self) as (tr & Hlog & Hshape).
  rewrite (events_of_log _ _ _ Hlog) in Hin.
  destruct Hshape as [[k Hk]|([Hnone|Hnone] & _)].
  - assert (EInferBegin m ∈ [EInherit; EClassAttributeTypes; EMethodSignatures])
      as Hin' by (rewrite Hk; apply elem_of_app; by left).
    rewrite !elem_of_cons in Hin'.
    destruct Hin' as [|[|[|?%elem_of_nil]]]; done.
  - by rewrite Hnone in Hinit.
  - rewrite Hnone in Hinit. by injection Hinit as <-.
Qed.

(** The order of the stages in the log of any call of [infer], whether it
    returns or raises: when the inference of a method begins, the
    attribute layout has been built ([build_attributes] has been called);
    and when the vtab type is built, the inference of every processed
    method whose name is neither [__new__] nor [__init__] has returned. *)
Lemma infer_stage_order (self : ExtensionCompiler) :
  let tr := events_of infer self in
  let self1 := signatures_processed self in
  (∀ before m after,
      tr = before ++ EInferBegin m :: after →
      EBuildAttributes ∈ before) ∧
  (∀ before after ms m,
      tr = before ++ EBuildVtabType :: after →
      methods self1 = Value ms →
      m ∈ ms → is_new_or_init (method_name m) = false →
      EInferEnd m ∈ before).
Proof.
  intros tr self1. subst tr self1.
  destruct (infer_events self) as (tr & Hlog & Hshape).
  rewrite (events_of_log _ _ _ Hlog). split.
  - intros before m after ->.
    destruct Hshape as [[k Hk]|(_ & ms & Hms & [k Hk])].
    + exfalso.
      assert (EInferBegin m ∈ [EInherit; EClassAttributeTypes; EMethodSignatures])
        as Hin by (rewrite Hk, <- !app_assoc; apply elem_of_app; right; by left).
      rewrite !elem_of_cons in Hin.
      destruct Hin as [|[|[|?%elem_of_nil]]]; done.
    + unfold schedule in Hk. rewrite <- app_assoc in Hk. cbn [app] in Hk.
      eapply (marker_before [_; _; _]); [exact Hk| |done].
      rewrite !elem_of_cons. by intros [|[|[|?%elem_of_nil]]].
  - intros before after ms m -> Hms Hm Hother.
    assert (m ∈ other_methods ms) as Hm'.
    { unfold other_methods. by apply list_elem_of_filter. }
    destruct Hshape as [[k Hk]|(_ & ms' & Hms' & [k Hk])].
    + exfalso.
      assert (EBuildVtabType ∈ [EInherit; EClassAttributeTypes; EMethodSignatures])
        as Hin by (rewrite Hk, <- !app_assoc; apply elem_of_app; right; by left).
      rewrite !elem_of_cons in Hin.
      destruct Hin as [|[|[|?%elem_of_nil]]]; done.
    + assert (ms' = ms) as -> by congruence.
      unfold schedule in Hk. rewrite <- app_assoc in Hk. cbn [app] in Hk.
      change (EInherit :: EClassAttributeTypes :: EMethodSignatures ::
              EBuildAttributes :: inference_events ms ++ [EBuildVtabType])
        with ((EInherit :: EClassAttributeTypes :: EMethodSignatures ::
               EBuildAttributes :: inference_events ms) ++ [EBuildVtabType]) in Hk.
      apply before_unique in Hk as ->.
      * do 4 right. by apply inference_events_end.
      * rewrite !elem_of_cons.
        intros [|[|[|[|Hin]]]]; try done.
        by destruct (inference_events_only _ _ Hin) as [m' [|]].
Qed.

(** C4. What [infer] does for a class with an [__init__]. Once the
    attributes are inherited and the method signatures processed, the
    init stage finds [__init__] in the class dictionary and calls
    [type_infer_method] with two positional arguments; the call raises
    [TypeError] before the body of [type_infer_method] runs, and [infer]
    ends there. The compiler object is left as the signature stage left
    it and the only calls made are those of the first three stages: the
    inference of [__init__] does not complete, [build_attributes] is not
    called, no other method is inferred and the vtab type is not
    built. *)
Theorem infer_with_init_raises (self : ExtensionCompiler) (initfunc : member) :
  ((infer_attributes >> process_method_signatures) self).1 = Return () →
  class_dict (signatures_processed self) !! "__init__" = Some initfunc →
  initfunc ≠ MNone →
  ∃ e, exc_cls e = TypeError ∧
       infer self = (Raise e, signatures_processed self) ∧
       events_of infer self = [EInherit; EClassAttributeTypes; EMethodSignatures].
Proof.
  intros Hret Hinit Hnot.
  pose proof (init_stage_cases (signatures_processed self)) as Hstage.
  rewrite Hinit in Hstage.
  assert (∃ e, exc_cls e = TypeError ∧
               type_infer_init_method (signatures_processed self) =
               (Raise e, signatures_processed self)) as (e & He & Hraise).
  { by destruct initfunc. }
  exists e. split; [done|].
  assert (infer self = (Raise e, signatures_processed self)) as Hinfer.
  { rewrite infer_split. unfold signatures_processed in *. unfold and_then at 1.
    destruct ((infer_attributes >> process_method_signatures) self)
      as [[[]|e'] self1]; [|done].
    cbn [fst snd] in *. unfold after_signatures, and_then. by rewrite Hraise. }
  split; [done|].
  destruct (signatures_logs self) as [(tr1 & Hlog1 & _ & Hret1) _].
  rewrite (Hret1 () Hret) in Hlog1.
  unfold events_of. rewrite Hinfer. cbn [snd].
  unfold signatures_processed. rewrite Hlog1. by rewrite drop_app_length.
Qed.

(** C5. What the init-inference stage does, for every compiler object.
    When the working class dictionary has no [__init__] (or holds
    [None] for it) the stage returns and leaves the compiler as it was.
    When it holds an [__init__], the stage calls [type_infer_method]
    with two positional arguments, the call raises [TypeError] before
    the body of [type_infer_method] runs, and the compiler is left as
    it was: nothing is inferred, no function environment is stored and
    no signature is recorded. *)
Theorem type_infer_init_method_outcome (self : ExtensionCompiler) :
  match class_dict self !! "__init__" with
  | None | Some MNone => type_infer_init_method self = (Return (), self)
  | Some _ =>
      ∃ e, exc_cls e = TypeError ∧ type_infer_init_method self = (Raise e, self)
  end.
Proof. exact (init_stage_cases self). Qed.

(** C7. What [compile] does, for every compiler object: it stores the
    class under [__numba_py_class] in the class dictionary, calls
    [compile_methods], which returns [None], and raises [TypeError]
    when it unpacks that value. No method is compiled, and neither
    [build_vtab] nor the native type factory is called. *)
Theorem compile_outcome (self : ExtensionCompiler) :
  compile self =
  (Raise (mkExc TypeError "'NoneType' object is not iterable"),
   set_class_dict self
     (<["__numba_py_class" := MClass (self_py_class self)]> (class_dict self))) ∧
  events_of compile self = [].
Proof.
  split; [done|].
  unfold events_of. simpl. by rewrite drop_all.
Qed.

End Compiler.

Lemma validate_stops_at_first_failure_witness :
  let self := example_compiler ∅ Unset in
  (validate (H := example_collaborators []) self).1 =
    Raise (mkExc (OtherError "ValidationError")
                 "attribute name collides with a method name") ∧
  events_of (validate (H := example_collaborators [])) self = [EValidate 0].
Proof.
  exact (proj1 (validate_stops_at_first_failure (H := example_collaborators [])
                  (example_compiler ∅ Unset) [collides; abstract] eq_refl)
               [] collides [abstract] _ eq_refl (Forall_nil_2 _) eq_refl).
Defined.

(** C3, as the spec has it, fails on a set of two validators that both
    reject: the second validator is never called, and its failure is not
    part of what the caller receives. *)
Lemma validate_reports_first_failure_only :
  let self := example_compiler ∅ Unset in
  ¬ runs_every_validator (H := example_collaborators []) self ∧
  ¬ surfaces_every_failure (H := example_collaborators []) self.
Proof.
  split.
  - intros Hruns.
    specialize (Hruns [collides; abstract] eq_refl 1 ltac:(simpl; lia)).
    vm_compute in Hruns.
    inversion Hruns as [|? ? ? Hruns']; subst. inversion Hruns'.
  - intros Hsurf.
    destruct (Hsurf [collides; abstract] eq_refl 1 abstract _ eq_refl eq_refl)
      as (diagnostic & before & after & Hd & Hmsg).
    vm_compute in Hd. injection Hd as <-.
    apply (f_equal String.length) in Hmsg.
    rewrite !string_length_app in Hmsg. cbn in Hmsg. lia.
Qed.


Example type_infer_methods_example :
  let self := example_compiler ∅ (Value [init; norm; scale]) in
  (type_infer_methods (H := example_collaborators []) self).1 = Return () ∧
  events_of (type_infer_methods (H := example_collaborators [])) self =
  [EInferBegin norm; EInferEnd norm; EInferBegin scale; EInferEnd scale].
Proof. split; reflexivity. Qed.

Lemma infer_with_init_raises_witness :
  let self := example_compiler ∅ Unset in
  ∃ e, exc_cls e = TypeError ∧
       infer (H := example_collaborators [init; norm]) self =
       (Raise e, signatures_processed (H := example_collaborators [init; norm]) self) ∧
       events_of (infer (H := example_collaborators [init; norm])) self =
       [EInherit; EClassAttributeTypes; EMethodSignatures].
Proof.
  refine (infer_with_init_raises (H := example_collaborators [init; norm])
            (example_compiler ∅ Unset) (MMethod init) eq_refl _ _).
  - vm_compute. reflexivity.
  - discriminate.
Defined.

Example infer_stage_order_example :
  EBuildAttributes ∈
    [EInherit; EClassAttributeTypes; EMethodSignatures; EBuildAttributes;
     EInferBegin norm; EInferEnd norm] ∧
  EInferEnd norm ∈
    [EInherit; EClassAttributeTypes; EMethodSignatures; EBuildAttributes;
     EInferBegin norm; EInferEnd norm; EInferBegin scale; EInferEnd scale].
Proof.
  split.
  - exact (proj1 (infer_stage_order (H := example_collaborators [norm; scale])
                    (example_compiler ∅ Unset))
                 [EInherit; EClassAttributeTypes; EMethodSignatures;
                  EBuildAttributes; EInferBegin norm; EInferEnd norm]
                 scale [EInferEnd scale; EBuildVtabType] eq_refl).
  - refine (proj2 (infer_stage_order (H := example_collaborators [norm; scale])
                     (example_compiler ∅ Unset))
                  [EInherit; EClassAttributeTypes; EMethodSignatures; EBuildAttributes;
                   EInferBegin norm; EInferEnd norm; EInferBegin scale; EInferEnd scale]
                  [] [norm; scale] norm eq_refl eq_refl _ eq_refl).
    apply list_elem_of_here.
Qed.

Example validate_all_accept :
  let self := example_compiler ∅ Unset in
  (validate (H := example_collaborators_with [accepts; accepts] []) self).1 = Return () ∧
  events_of (validate (H := example_collaborators_with [accepts; accepts] [])) self =
  [EValidate 0; EValidate 1].
Proof. split; reflexivity. Qed.

Example infer_without_init :
  let self := example_compiler ∅ Unset in
  (infer (H := example_collaborators [norm; scale]) self).1 = Return () ∧
  events_of (infer (H := example_collaborators [norm; scale])) self =
  [EInherit; EClassAttributeTypes; EMethodSignatures; EBuildAttributes;
   EInferBegin norm; EInferEnd norm; EInferBegin scale; EInferEnd scale;
   EBuildVtabType].
Proof. split; vm_compute; reflexivity. Qed.

Example infer_with_init :
  let self := example_compiler ∅ Unset in
  (infer (H := example_collaborators [init; norm]) self).1 =
    Raise (mkExc TypeError "type_infer_method() takes exactly 2 arguments (3 given)") ∧
  events_of (infer (H := example_collaborators [init; norm])) self =
  [EInherit; EClassAttributeTypes; EMethodSignatures].
Proof. split; vm_compute; reflexivity. Qed.

Example type_infer_init_method_with_init :
  let self := example_compiler (<["__init__" := MMethod init]> ∅) (Value [init; norm]) in
  type_infer_init_method (H := example_collaborators [init; norm]) self =
  (Raise (mkExc TypeError "type_infer_method() takes exactly 2 arguments (3 given)"), self).
Proof. reflexivity. Qed.

(** *** Further properties of attribute inheritance *)

(** X11. [inherit_attributes] on a derived and a base extension type that
    both have an attribute table: the derived type keeps its class and its
    vtab type, its attribute table keeps its parents, and its attribute
    dictionary maps a name to the base's entry when the base has one and
    to what it held before otherwise. *)
Theorem inherit_attributes_lookup (D B : ExtType) (tD tB : AttributeTable) :
  attribute_table D = Some tD →
  attribute_table B = Some tB →
  ∃ tD',
    inherit_attributes (OExtType D) (OExtType B) =
      Return (OExtType (mkExtType (py_class D) (Some tD') (vtab_type D))) ∧
    attr_parents tD' = attr_parents tD ∧
    ∀ name,
      attributedict tD' !! name =
      match attributedict tB !! name with
      | Some t => Some t
      | None => attributedict tD !! name
      end.
Proof.
  intros HD HB. eexists. split_and!.
  - by rewrite (inherit_attributes_ext_type _ _ _ _ HD HB).
  - done.
  - intros name. simpl. unfold dict_update. rewrite lookup_union.
    by destruct (attributedict tB !! name), (attributedict tD !! name).
Qed.

(** X12. [inherit_methods] on a derived and a base extension type that
    both have a vtab type: the derived type keeps its class and its
    attribute table, its vtab type keeps its parents, and its method
    dictionary maps a name to the base's entry when the base has one and
    to what it held before otherwise. *)
Theorem inherit_methods_lookup (D B : ExtType) (vD vB : VTabType) :
  vtab_type D = Some vD →
  vtab_type B = Some vB →
  ∃ vD',
    inherit_methods (OExtType D) (OExtType B) =
      Return (OExtType (mkExtType (py_class D) (attribute_table D) (Some vD'))) ∧
    vtab_parents vD' = vtab_parents vD ∧
    ∀ name,
      methoddict vD' !! name =
      match methoddict vB !! name with
      | Some t => Some t
      | None => methoddict vD !! name
      end.
Proof.
  intros HD HB. eexists. split_and!.
  - by rewrite (inherit_methods_ext_type _ _ _ _ HD HB).
  - done.
  - intros name. simpl. unfold dict_update. rewrite lookup_union.
    by destruct (methoddict vB !! name), (methoddict vD !! name).
Qed.

Lemma inherit_without_table_aux (D B : ExtType) :
  (attribute_table D = None ∨ attribute_table B = None →
     ∃ e, exc_cls e = AttributeError ∧
          inherit_attributes (OExtType D) (OExtType B) = Raise e) ∧
  (vtab_type D = None ∨ vtab_type B = None →
     ∃ e, exc_cls e = AttributeError ∧
          inherit_methods (OExtType D) (OExtType B) = Raise e).
Proof.
  split.
  - unfold inherit_attributes, get_attribute_table.
    intros [HD|HB].
    + rewrite HD. raises.
    + rewrite HB. destruct (attribute_table D); raises.
  - unfold inherit_methods, get_vtab_type.
    intros [HD|HB].
    + rewrite HD. raises.
    + rewrite HB. destruct (vtab_type D); raises.
Qed.

(** X13. [inherit_attributes] and [inherit_methods] raise
    [AttributeError] when the derived or the base extension type has
    [None] where the table is read. *)
Theorem inherit_without_table (D B : ExtType) :
  (attribute_table D = None ∨ attribute_table B = None →
     ∃ e, exc_cls e = AttributeError ∧
          inherit_attributes (OExtType D) (OExtType B) = Raise e) ∧
  (vtab_type D = None ∨ vtab_type B = None →
     ∃ e, exc_cls e = AttributeError ∧
          inherit_methods (OExtType D) (OExtType B) = Raise e).
Proof. exact (inherit_without_table_aux D B). Qed.

(** X14. Inheriting from the same base a second time changes nothing:
    after [inherit_attributes] (or [inherit_methods]) has returned for a
    base, a further call for that base returns the derived type as it
    is. *)
Theorem inherit_twice (D B : ExtType) (D' : pyobj) :
  (inherit_attributes (OExtType D) (OExtType B) = Return D' →
     inherit_attributes D' (OExtType B) = Return D') ∧
  (inherit_methods (OExtType D) (OExtType B) = Return D' →
     inherit_methods D' (OExtType B) = Return D').
Proof.
  split.
  - destruct (attribute_table D) as [tD|] eqn:HD;
      [|intros E; destruct (proj1 (inherit_without_table_aux D B) (or_introl HD))
                    as (e & _ & He); by rewrite He in E].
    destruct (attribute_table B) as [tB|] eqn:HB;
      [|intros E; destruct (proj1 (inherit_without_table_aux D B) (or_intror HB))
                    as (e & _ & He); by rewrite He in E].
    rewrite (inherit_attributes_ext_type _ _ _ _ HD HB). intros [= <-].
    erewrite inherit_attributes_ext_type; [|reflexivity|exact HB].
    simpl. unfold dict_update. do 4 f_equal.
    by rewrite (assoc_L (∪)), (idemp_L (∪)).
  - destruct (vtab_type D) as [vD|] eqn:HD;
      [|intros E; destruct (proj2 (inherit_without_table_aux D B) (or_introl HD))
                    as (e & _ & He); by rewrite He in E].
    destruct (vtab_type B) as [vB|] eqn:HB;
      [|intros E; destruct (proj2 (inherit_without_table_aux D B) (or_intror HB))
                    as (e & _ & He); by rewrite He in E].
    rewrite (inherit_methods_ext_type _ _ _ _ HD HB). intros [= <-].
    erewrite inherit_methods_ext_type; [|reflexivity|exact HB].
    simpl. unfold dict_update. do 4 f_equal.
    by rewrite (assoc_L (∪)), (idemp_L (∪)).
Qed.

Lemma inherit_attributes_lookup_witness :
  ∃ tD',
    inherit_attributes (OExtType derived) (OExtType parent_A) =
      Return (OExtType (mkExtType (py_class derived) (Some tD') (vtab_type derived))) ∧
    attr_parents tD' = [attribute_table parent_A; attribute_table parent_B] ∧
    ∀ name,
      attributedict tD' !! name =
      match (<["norm" := "int32"]> (<["y" := "double"]> ∅) : gmap string ty) !! name with
      | Some t => Some t
      | None => (∅ : gmap string ty) !! name
      end.
Proof.
  exact (inherit_attributes_lookup derived parent_A _ _ eq_refl eq_refl).
Defined.

Lemma inherit_methods_lookup_witness :
  ∃ vD',
    inherit_methods (OExtType derived) (OExtType parent_B) =
      Return (OExtType (mkExtType (py_class derived) (attribute_table derived) (Some vD'))) ∧
    vtab_parents vD' = [vtab_type parent_A; vtab_type parent_B] ∧
    ∀ name,
      methoddict vD' !! name =
      match (<["norm" := double_sig]> ∅ : gmap string Signature) !! name with
      | Some t => Some t
      | None => (∅ : gmap string Signature) !! name
      end.
Proof.
  exact (inherit_methods_lookup derived parent_B _ _ eq_refl eq_refl).
Defined.

Lemma inherit_without_table_witness :
  (∃ e, exc_cls e = AttributeError ∧
        inherit_attributes (OExtType example_ext_type) (OExtType parent_A) = Raise e) ∧
  (∃ e, exc_cls e = AttributeError ∧
        inherit_methods (OExtType derived) (OExtType example_ext_type) = Raise e).
Proof.
  split.
  - exact (proj1 (inherit_without_table example_ext_type parent_A) (or_introl eq_refl)).
  - exact (proj2 (inherit_without_table derived example_ext_type) (or_intror eq_refl)).
Defined.

Lemma inherit_twice_witness :
  ∃ D', inherit_attributes (OExtType derived) (OExtType parent_A) = Return D' ∧
        inherit_attributes D' (OExtType parent_A) = Return D'.
Proof.
  eexists. split; [reflexivity|].
  exact (proj1 (inherit_twice derived parent_A _) eq_refl).
Defined.

(** *** Class attribute types and descriptors *)

(** X15. After [process_class_attribute_types] the symbol table maps a
    name to a variable of the declared type, not promotable, when the class
    dictionary holds a type under that name; for every other name it
    holds what it held before. *)
Theorem process_class_attribute_types_lookup
    (symtab : gmap string symtab_Variable) (class_dict : gmap string member)
    (name : string) :
  process_class_attribute_types symtab class_dict !! name =
  match class_dict !! name with
  | Some (MType t) => Some (mkVariable t false)
  | _ => symtab !! name
  end.
Proof.
  unfold process_class_attribute_types. revert name.
  apply (map_fold_weak_ind
           (λ (r : gmap string symtab_Variable) (m : gmap string member),
              ∀ name, r !! name =
                      match m !! name with
                      | Some (MType t) => Some (mkVariable t false)
                      | _ => symtab !! name
                      end)).
  - intros name. by rewrite lookup_empty.
  - intros i x m r Hi IH name.
    destruct (decide (i = name)) as [->|Hne].
    + rewrite lookup_insert_eq. specialize (IH name). rewrite Hi in IH.
      destruct x; try done. by rewrite lookup_insert_eq.
    + rewrite (lookup_insert_ne m) by done. rewrite <- IH.
      destruct x; try done. by rewrite lookup_insert_ne.
Qed.

Lemma build_descriptors_lookup_aux {S V} (make : string → V)
    (symtab : gmap string S) (class_dict : gmap string V) (name : string) :
  build_descriptors make symtab class_dict !! name =
  match symtab !! name with
  | Some _ => Some (make name)
  | None => class_dict !! name
  end.
Proof.
  unfold build_descriptors. revert name.
  apply (map_fold_weak_ind
           (λ (r : gmap string V) (m : gmap string S),
              ∀ name, r !! name =
                      match m !! name with
                      | Some _ => Some (make name)
                      | None => class_dict !! name
                      end)).
  - intros name. by rewrite lookup_empty.
  - intros i x m r Hi IH name.
    destruct (decide (i = name)) as [->|Hne].
    + by rewrite !lookup_insert_eq.
    + rewrite !lookup_insert_ne by done. apply IH.
Qed.

(** X16. After [build_descriptors] the class dictionary maps every
    attribute name of the symbol table to the descriptor made for it,
    whatever it held under that name before, and holds for every other
    name what it held before. With the [create_descr] of this module every
    descriptor is [None]. *)
Theorem build_descriptors_lookup {S V} (make : string → V)
    (symtab : gmap string S) (class_dict : gmap string V) (name : string) :
  build_descriptors make symtab class_dict !! name =
  match symtab !! name with
  | Some _ => Some (make name)
  | None => class_dict !! name
  end.
Proof. exact (build_descriptors_lookup_aux make symtab class_dict name). Qed.

Example build_descriptors_default (symtab : gmap string symtab_Variable)
    (class_dict : gmap string member) (name : string) :
  is_Some (symtab !! name) →
  build_descriptors create_descr symtab class_dict !! name = Some MNone.
Proof.
  intros [x Hx]. by rewrite build_descriptors_lookup_aux, Hx.
Qed.

(** *** Further properties of the compiler *)

Lemma getitem_setitem d k v k' :
  getitem (setitem d k v) k' = if decide (k = k') then Some v else getitem d k'.
Proof.
  induction d as [|[k0 v0] d IH]; simpl.
  - by destruct (decide (k = k')).
  - destruct (decide (k0 = k)) as [->|Hne]; simpl.
    + by destruct (decide (k = k')).
    + destruct (decide (k0 = k')) as [->|Hne'].
      * by rewrite decide_False by done.
      * exact IH.
Qed.

Section MoreCompiler.
Context `{Collaborators}.

Lemma and_then_returns {A B} (m : M A) (k : A → M B) self b self' :
  and_then m k self = (Return b, self') →
  ∃ a self1, m self = (Return a, self1) ∧ k a self1 = (Return b, self').
Proof.
  unfold and_then. destruct (m self) as [[a|e] self1]; [|done].
  intros E. by exists a, self1.
Qed.

(** **** Method signatures *)

Lemma add_methods_class_dict pairs self :
  (∀ name, name ∉ method_names pairs.*1 →
           class_dict (add_methods pairs self).2 !! name = class_dict self !! name) ∧
  (∀ name, is_Some (class_dict self !! name) →
           is_Some (class_dict (add_methods pairs self).2 !! name)) ∧
  ((add_methods pairs self).1 = Return () →
     NoDup (method_names pairs.*1) →
     ∀ m, m ∈ pairs.*1 →
          class_dict (add_methods pairs self).2 !! method_name m = Some (MMethod m)).
Proof.
  revert self. induction pairs as [|[m0 mt0] pairs IH]; intros self.
  { split_and!; [done..|]. by intros _ _ m ?%elem_of_nil. }
  cbn [add_methods]. unfold and_then. cbn beta.
  destruct (add_method (ext_type self) (method_name m0) mt0) as [[[]|e] ext];
    cbn [fst snd].
  - set (self1 := set_class_dict (set_ext_type self ext)
                    (<[method_name m0 := MMethod m0]> (class_dict (set_ext_type self ext)))).
    destruct (IH self1) as (Hout & Hkeys & Hin).
    assert (class_dict self1 = <[method_name m0 := MMethod m0]> (class_dict self))
      as Hself1 by done.
    split_and!.
    + intros name Hname. cbn in Hname. apply not_elem_of_cons in Hname as [Hne Hname].
      rewrite (Hout _ Hname), Hself1. by apply lookup_insert_ne.
    + intros name Hname. apply Hkeys. rewrite Hself1.
      destruct (decide (method_name m0 = name)) as [->|Hne].
      * rewrite lookup_insert_eq. by eexists.
      * by rewrite lookup_insert_ne.
    + intros Hr Hnodup m Hm. cbn in Hnodup, Hm.
      apply NoDup_cons in Hnodup as [Hfresh Hnodup].
      apply elem_of_cons in Hm as [->|Hm].
      * rewrite (Hout _ Hfresh), Hself1. apply lookup_insert_eq.
      * by apply Hin.
  - split_and!; [done..|]. done.
Qed.

Lemma add_methods_method_types pairs self :
  method_types (add_methods pairs self).2 = method_types self.
Proof.
  revert self. induction pairs as [|[m0 mt0] pairs IH]; intros self; [done|].
  cbn [add_methods]. unfold and_then. cbn beta.
  destruct (add_method (ext_type self) (method_name m0) mt0) as [[[]|e] ext];
    cbn [fst snd]; [|done]. by rewrite IH.
Qed.

(** X17. [process_method_signatures], when the signature processor
    returns methods [ms] with method types [mts]: [self.methods] and
    [self.method_types] hold them, whether or not a later [add_method]
    raises; no key of the class dictionary is removed, and a name that is
    not the name of one of the methods keeps its value; and when the call
    returns, [ms] and [mts] have the same length and the methods have
    different names, the class dictionary maps the name of every method to
    that [Method]. *)
Theorem process_method_signatures_class_dict
    (self : ExtensionCompiler) (ms : list Method) (mts : list Signature) :
  get_method_signatures (class_dict self) (ext_type self) = Return (ms, mts) →
  let self' := (process_method_signatures self).2 in
  methods self' = Value ms ∧ method_types self' = Value mts ∧
  (∀ name, is_Some (class_dict self !! name) → is_Some (class_dict self' !! name)) ∧
  (∀ name, name ∉ method_names ms → class_dict self' !! name = class_dict self !! name) ∧
  ((process_method_signatures self).1 = Return () →
     length ms = length mts → NoDup (method_names ms) →
     ∀ m, m ∈ ms → class_dict self' !! method_name m = Some (MMethod m)).
Proof.
  intros Hsig self'. subst self'. unfold process_method_signatures.
  change (class_dict (emit EMethodSignatures self)) with (class_dict self).
  change (ext_type (emit EMethodSignatures self)) with (ext_type self).
  rewrite Hsig.
  set (self0 := set_methods (emit EMethodSignatures self) (Value ms) (Value mts)).
  destruct (add_methods_keeps (zip ms mts) self0) as [_ Hms].
  destruct (add_methods_class_dict (zip ms mts) self0) as (Hout & Hkeys & Hin).
  assert (∀ m, m ∈ (zip ms mts).*1 → m ∈ ms) as Hsub.
  { intros m (p & -> & Hp)%list_elem_of_fmap. destruct p as [m mt].
    by eapply elem_of_zip_l. }
  split_and!.
  - by rewrite Hms.
  - by rewrite add_methods_method_types.
  - exact Hkeys.
  - intros name Hname. rewrite Hout; [done|].
    intros (m & -> & Hm)%list_elem_of_fmap. apply Hname.
    apply list_elem_of_fmap. exists m. split; [done|]. by apply Hsub.
  - intros Hr Hlen Hnodup m Hm.
    assert ((zip ms mts).*1 = ms) as Hfst by (apply fst_zip; lia).
    apply Hin; [done| |]; by rewrite Hfst.
Qed.

(** **** Function environments *)

Lemma and_then_keeps {A B} (m : M A) (k : A → M B) :
  keeps_func_envs m → (∀ a, keeps_func_envs (k a)) → keeps_func_envs (and_then m k).
Proof.
  intros Hm Hk self key Hkey. unfold and_then.
  specialize (Hm self key Hkey).
  destruct (m self) as [[a|e] self1]; [|done].
  by apply Hk.
Qed.

Lemma on_ext_type_keeps_envs ev f : keeps_func_envs (on_ext_type ev f).
Proof.
  intros self key Hkey. unfold on_ext_type.
  by destruct (f (ext_type (emit ev self))) as [r e].
Qed.

Lemma add_methods_keeps_envs pairs : keeps_func_envs (add_methods pairs).
Proof.
  induction pairs as [|[m mt] pairs IH]; [by intros self key|].
  cbn [add_methods]. apply and_then_keeps; [|intros _; apply and_then_keeps].
  - intros self key Hkey.
    by destruct (add_method (ext_type self) (method_name m) mt) as [r e].
  - by intros self key.
  - by intros _.
Qed.

Lemma call_type_infer_method_keeps positional :
  keeps_func_envs (call_type_infer_method positional).
Proof.
  intros self key Hkey.
  destruct positional as [|[[]|] [|]]; try done.
  cbn [call_type_infer_method type_infer_method].
  destruct (compile2 _ _ _ _ _) as [func_env|e]; [|done].
  destruct (add_method _ _ _) as [r e]. cbn.
  rewrite getitem_setitem. by case_decide.
Qed.

Lemma type_infer_loop_keeps ms : keeps_func_envs (type_infer_loop ms).
Proof.
  induction ms as [|m ms IH]; [by intros self key|].
  cbn [type_infer_loop]. destruct (is_new_or_init (method_name m)); [done|].
  apply and_then_keeps; [apply call_type_infer_method_keeps|by intros _].
Qed.

Lemma type_infer_methods_keeps : keeps_func_envs type_infer_methods.
Proof.
  intros self key Hkey. unfold type_infer_methods.
  destruct (methods self); [done..|]. by apply type_infer_loop_keeps.
Qed.

Lemma infer_attributes_keeps : keeps_func_envs infer_attributes.
Proof.
  unfold infer_attributes. apply and_then_keeps; [|intros _].
  - intros self key Hkey. by apply on_ext_type_keeps_envs.
  - intros self key Hkey. by apply on_ext_type_keeps_envs.
Qed.

Lemma process_method_signatures_keeps : keeps_func_envs process_method_signatures.
Proof.
  intros self key Hkey. unfold process_method_signatures.
  destruct (get_method_signatures _ _) as [[ms mts]|e]; [|done].
  by apply add_methods_keeps_envs.
Qed.

Lemma type_infer_init_method_keeps : keeps_func_envs type_infer_init_method.
Proof.
  intros self key Hkey. unfold type_infer_init_method.
  destruct (class_dict self !! "__init__") as [[]|]; try done;
    by apply call_type_infer_method_keeps.
Qed.

Lemma infer_keeps : keeps_func_envs infer.
Proof.
  unfold infer.
  apply and_then_keeps; [apply infer_attributes_keeps|intros _].
  apply and_then_keeps; [apply process_method_signatures_keeps|intros _].
  apply and_then_keeps; [apply type_infer_init_method_keeps|intros _].
  apply and_then_keeps; [apply on_ext_type_keeps_envs|intros _].
  apply and_then_keeps; [apply type_infer_methods_keeps|intros _].
  apply and_then_keeps; [apply on_ext_type_keeps_envs|intros _].
  by intros self key.
Qed.

(** X18. No stage of [infer] removes an entry from [self.func_envs]: a
    method that has a function environment before [infer], or before
    [type_infer_methods] alone, has one afterwards, whether the call
    returns or raises. *)
Theorem func_envs_never_removed (self : ExtensionCompiler) (m : Method) :
  is_Some (getitem (func_envs self) m) →
  is_Some (getitem (func_envs (infer self).2) m) ∧
  is_Some (getitem (func_envs (type_infer_methods self).2) m).
Proof.
  intros Hm. split; [by apply infer_keeps|by apply type_infer_methods_keeps].
Qed.

Lemma type_infer_loop_envs ms self self' :
  type_infer_loop ms self = (Return (), self') →
  env self' = env self ∧ flags self' = flags self ∧
  ∀ m,
    (m ∈ other_methods ms →
       ∃ func_env,
         compile2 (env self) (py_func m) (return_type (signature m))
                  (args (signature m)) (flags self) = Return func_env ∧
         getitem (func_envs self') m = Some func_env) ∧
    (m ∉ other_methods ms →
       getitem (func_envs self') m = getitem (func_envs self) m).
Proof.
  revert self. induction ms as [|m0 ms IH]; intros self Hloop.
  { injection Hloop as <-. split_and!; [done..|]. intros m. split; [|done].
    by intros ?%elem_of_nil. }
  cbn [type_infer_loop] in Hloop. rewrite other_methods_cons.
  destruct (is_new_or_init (method_name m0)); [by apply IH|].
  apply and_then_returns in Hloop as ([] & self1 & Hcall & Hloop).
  cbn [call_type_infer_method type_infer_method] in Hcall.
  change (env (emit (EInferBegin m0) self)) with (env self) in Hcall.
  change (flags (emit (EInferBegin m0) self)) with (flags self) in Hcall.
  destruct (compile2 (env self) (py_func m0) (return_type (signature m0))
                     (args (signature m0)) (flags self)) as [func_env|e] eqn:Hc;
    [|done].
  destruct (add_method _ _ _) as [r e] eqn:Ha. injection Hcall as -> <-.
  destruct (IH _ Hloop) as (Henv & Hflags & Hall).
  split_and!; [done..|].
  intros m. destruct (Hall m) as [Hin Hout].
  change (env (set_ext_type _ e)) with (env self) in Hin.
  change (flags (set_ext_type _ e)) with (flags self) in Hin.
  change (func_envs (set_ext_type _ e))
    with (setitem (func_envs self) m0 func_env) in Hout.
  destruct (decide (m ∈ other_methods ms)) as [Hm|Hm].
  - split; [intros _; by apply Hin|]. intros Hnot. exfalso. apply Hnot. by right.
  - rewrite (Hout Hm), getitem_setitem. split.
    + intros [->|?]%elem_of_cons; [|done].
      exists func_env. split; [done|]. by rewrite decide_True.
    + intros Hnot. rewrite decide_False; [done|]. intros ->. apply Hnot. by left.
Qed.

(** X19. When [type_infer_methods] returns, with [self.methods] the
    processed list, every processed method whose name is neither [__new__]
    nor [__init__] has in [self.func_envs] the function environment that
    the type-inference pipeline returned for it, and the entry of every
    other method is what it was. *)
Theorem type_infer_methods_func_envs
    (self : ExtensionCompiler) (ms : list Method) (m : Method) :
  methods self = Value ms →
  (type_infer_methods self).1 = Return () →
  let self' := (type_infer_methods self).2 in
  (m ∈ ms → is_new_or_init (method_name m) = false →
     ∃ func_env,
       compile2 (env self) (py_func m) (return_type (signature m))
                (args (signature m)) (flags self) = Return func_env ∧
       getitem (func_envs self') m = Some func_env) ∧
  ((m ∉ ms ∨ is_new_or_init (method_name m) = true) →
     getitem (func_envs self') m = getitem (func_envs self) m).
Proof.
  intros Hms Hr self'. subst self'.
  assert (type_infer_methods self = type_infer_loop ms self) as E
    by (unfold type_infer_methods; by rewrite Hms).
  rewrite E in *.
  destruct (type_infer_loop ms self) as [r self'] eqn:Hloop.
  cbn in Hr. subst r.
  destruct (type_infer_loop_envs _ _ _ Hloop) as (_ & _ & Hall).
  destruct (Hall m) as [Hin Hout]. cbn [snd]. split.
  - intros Hm Hother. apply Hin. unfold other_methods. by apply list_elem_of_filter.
  - intros Hnot. apply Hout. unfold other_methods. rewrite list_elem_of_filter.
    intros [Hother Hm]. destruct Hnot as [?|Hnew]; [done|congruence].
Qed.

(** **** After [infer] *)

(** X20. When [infer] returns it has set [self.methods] and
    [self.method_types] to [None]: the processed methods are no longer held
    by the compiler, and a further call of [type_infer_methods] raises
    [TypeError] and leaves the compiler as it is. *)
Theorem infer_resets_methods (self : ExtensionCompiler) :
  (infer self).1 = Return () →
  let self' := (infer self).2 in
  methods self' = IsNone ∧ method_types self' = IsNone ∧
  ∃ e, exc_cls e = TypeError ∧ type_infer_methods self' = (Raise e, self').
Proof.
  intros Hr self'. subst self'.
  destruct (infer self) as [r self'] eqn:Hinfer. cbn in Hr. subst r. cbn [snd].
  unfold infer in Hinfer.
  repeat (apply and_then_returns in Hinfer as ([] & ? & _ & Hinfer)).
  injection Hinfer as <-.
  split_and!; [done..|]. unfold type_infer_methods. cbn. raises.
Qed.

(** **** The inheriter of this module *)

(** X21. When the inheriter the compiler is constructed with is an
    [AttributesInheriter], [infer_attributes] calls its [inherit] with two
    arguments; [inherit] takes one, the call raises [TypeError], and
    [infer] ends there: no signature is processed, nothing is inferred and
    the compiler object is left as it was. *)
Theorem infer_with_AttributesInheriter (self : ExtensionCompiler) :
  (∀ e d, inheriter_inherit e d = AttributesInheriter_inherit e d) →
  infer self =
  (Raise (mkExc TypeError "inherit() takes exactly 2 arguments (3 given)"),
   emit EInherit self) ∧
  events_of infer self = [EInherit].
Proof.
  intros Hinh.
  assert (infer self =
          (Raise (mkExc TypeError "inherit() takes exactly 2 arguments (3 given)"),
           emit EInherit self)) as E.
  { unfold infer, infer_attributes, and_then, on_ext_type. rewrite Hinh.
    unfold AttributesInheriter_inherit, call_inherit. cbn.
    by destruct self. }
  split; [done|]. unfold events_of. rewrite E. cbn. apply drop_app_length.
Qed.

End MoreCompiler.

Lemma process_method_signatures_class_dict_witness :
  let self := example_compiler ∅ Unset in
  let self' := (process_method_signatures (H := example_collaborators [norm; scale]) self).2 in
  methods self' = Value [norm; scale] ∧
  method_types self' = Value (signature <$> [norm; scale]) ∧
  (∀ name, is_Some (class_dict self !! name) → is_Some (class_dict self' !! name)) ∧
  (∀ name, name ∉ method_names [norm; scale] →
           class_dict self' !! name = class_dict self !! name) ∧
  ((process_method_signatures (H := example_collaborators [norm; scale]) self).1 = Return () →
     length [norm; scale] = length (signature <$> [norm; scale]) →
     NoDup (method_names [norm; scale]) →
     ∀ m, m ∈ [norm; scale] → class_dict self' !! method_name m = Some (MMethod m)).
Proof.
  exact (process_method_signatures_class_dict (H := example_collaborators [norm; scale])
           (example_compiler ∅ Unset) [norm; scale] (signature <$> [norm; scale]) eq_refl).
Defined.

Lemma func_envs_never_removed_witness :
  let self :=
    mkCompiler 0 [] example_class ∅ example_ext_type
               [(init, mkFuncEnv 13 (signature init))] (Value [norm]) Unset [] in
  is_Some (getitem (func_envs (infer (H := example_collaborators [norm]) self).2) init) ∧
  is_Some (getitem (func_envs (type_infer_methods (H := example_collaborators [norm]) self).2)
                   init).
Proof.
  refine (func_envs_never_removed (H := example_collaborators [norm])
            (mkCompiler 0 [] example_class ∅ example_ext_type
                        [(init, mkFuncEnv 13 (signature init))] (Value [norm]) Unset [])
            init _).
  by eexists.
Defined.

Lemma type_infer_methods_func_envs_witness :
  let self := example_compiler ∅ (Value [init; norm; scale]) in
  ∃ func_env,
    compile2 (Collaborators := example_collaborators []) (env self) (py_func norm)
             (return_type (signature norm)) (args (signature norm)) (flags self) =
      Return func_env ∧
    getitem (func_envs (type_infer_methods (H := example_collaborators []) self).2) norm =
      Some func_env.
Proof.
  refine (proj1 (type_infer_methods_func_envs (H := example_collaborators [])
                   (example_compiler ∅ (Value [init; norm; scale]))
                   [init; norm; scale] norm eq_refl eq_refl) _ eq_refl).
  apply list_elem_of_further, list_elem_of_here.
Defined.

Lemma infer_resets_methods_witness :
  let self' := (infer (H := example_collaborators [norm; scale])
                      (example_compiler ∅ Unset)).2 in
  methods self' = IsNone ∧ method_types self' = IsNone ∧
  ∃ e, exc_cls e = TypeError ∧
       type_infer_methods (H := example_collaborators [norm; scale]) self' = (Raise e, self').
Proof.
  exact (infer_resets_methods (H := example_collaborators [norm; scale])
           (example_compiler ∅ Unset) eq_refl).
Defined.

Lemma infer_with_AttributesInheriter_witness :
  let self := example_compiler ∅ Unset in
  infer (H := example_collaborators_inheriter [norm; scale]) self =
  (Raise (mkExc TypeError "inherit() takes exactly 2 arguments (3 given)"),
   emit EInherit self) ∧
  events_of (infer (H := example_collaborators_inheriter [norm; scale])) self = [EInherit].
Proof.
  exact (infer_with_AttributesInheriter (H := example_collaborators_inheriter [norm; scale])
           (example_compiler ∅ Unset) (λ e d, eq_refl)).
Defined.

End CompileClassSpec.
